(** * Portfolio backend (main.py): a shallow embedding and its properties

    The service is a FastAPI application with three non-trivial handlers:
    [github_profile], [github_repos] and [test_database].  Each handler is
    embedded as a program in a small state-and-exception monad, following
    the Python text line by line.  What the handlers call but do not define
    (the [requests] client, the FastAPI layer that validates query
    parameters and turns results and exceptions into replies, the optional
    [database] module, the process environment) is modelled by its
    documented behaviour, in the sections named after it.

    Left out: JSON numbers with a fraction, exceptions that do not derive
    from [Exception] (a keyboard interrupt, an exit), and the trivial
    handlers [read_root] and [hello], which return a constant. *)

From Stdlib Require Import ZArith String Ascii List Sorted Permutation Lia.
From Stdlib Require OrderedTypeEx.
From stdpp Require Import base option list gmap strings pretty sorting.

Local Open Scope string_scope.
Local Open Scope Z_scope.

#[local] Set Warnings "-register-all".

(** ** Python strings

    A Python [str] is a sequence of code points.  It is represented by its
    UTF-8 encoding, a Rocq [string] of bytes: equality, emptiness and
    concatenation are those of the bytes, and the order of two strings by
    code point is their order byte by byte.  Length and slicing count code
    points, that is, the bytes that are not continuation bytes. *)

Module PyStr.

(** A continuation byte of UTF-8 has the form 10xxxxxx. *)
Definition is_continuation (a : ascii) : bool :=
  let n := Z.of_N (N_of_ascii a) in (128 <=? n) && (n <? 192).

(** [len(s)] *)
Fixpoint len (s : string) : nat :=
  match s with
  | EmptyString => O
  | String a s' => if is_continuation a then len s' else S (len s')
  end.

(** [s[:n]] for [n >= 0] *)
Fixpoint take (n : nat) (s : string) : string :=
  match s with
  | EmptyString => EmptyString
  | String a s' =>
      if is_continuation a then String a (take n s')
      else match n with
           | O => EmptyString
           | S n' => String a (take n' s')
           end
  end.

(** [a <= b] and [a < b] on [str] *)
Definition le (a b : string) : bool := String.leb a b.
Definition lt (a b : string) : bool := String.ltb a b.

End PyStr.

(** ** JSON values, as [r.json()] decodes them

    [dict] for objects, [list] for arrays, [str], [int], [bool] and [None].
    Numbers with a fraction are left out. *)

Inductive json : Type :=
| JNull
| JBool (b : bool)
| JInt (n : Z)
| JStr (s : string)
| JArr (l : list json)
| JObj (m : gmap string json).

Abbreviation obj := (gmap string json).

(** Truth value of an object in a condition: [None], [False], [0], the empty
    string, list and dict are false. *)
Definition truthy (v : json) : bool :=
  match v with
  | JNull => false
  | JBool b => b
  | JInt n => negb (n =? 0)
  | JStr s => negb (String.eqb s "")
  | JArr l => match l with [] => false | _ => true end
  | JObj m => negb (bool_decide (dom m = ∅))
  end.

(** [a or b] *)
Definition py_or (a b : json) : json := if truthy a then a else b.

(** [d.get(k)] and [d.get(k, default)] *)
Definition dict_get (d : obj) (k : string) : json := default JNull (d !! k).
Definition dict_get_default (d : obj) (k : string) (dflt : json) : json :=
  default dflt (d !! k).

(** [a == b].  A [bool] is an [int]: [True == 1].  Lists are equal item by
    item, dicts key by key; values of unrelated types are not equal. *)
Fixpoint py_eq (a b : json) {struct a} : bool :=
  match a, b with
  | JNull, JNull => true
  | JBool x, JBool y => Z.b2z x =? Z.b2z y
  | JBool x, JInt m => Z.b2z x =? m
  | JInt n, JBool y => n =? Z.b2z y
  | JInt n, JInt m => n =? m
  | JStr s, JStr t => String.eqb s t
  | JArr l1, JArr l2 =>
      (fix items (l1 l2 : list json) {struct l1} : bool :=
         match l1, l2 with
         | [], [] => true
         | x :: l1', y :: l2' => py_eq x y && items l1' l2'
         | _, _ => false
         end) l1 l2
  | JObj m1, JObj m2 =>
      bool_decide (dom m1 = dom m2) &&
      map_fold (λ k v rest,
                  rest && match m2 !! k with
                          | Some v' => py_eq v v'
                          | None => false
                          end) true m1
  | _, _ => false
  end.

(** [a < b], or [None] where Python raises [TypeError]: numbers are ordered
    by value, strings by code point, lists by the first item where they
    differ (a list that is the beginning of another one is smaller);
    [None], dicts and values of unrelated types are not ordered. *)
Fixpoint py_lt (a b : json) {struct a} : option bool :=
  match a, b with
  | JBool x, JBool y => Some (Z.b2z x <? Z.b2z y)
  | JBool x, JInt m => Some (Z.b2z x <? m)
  | JInt n, JBool y => Some (n <? Z.b2z y)
  | JInt n, JInt m => Some (n <? m)
  | JStr s, JStr t => Some (PyStr.lt s t)
  | JArr l1, JArr l2 =>
      (fix items (l1 l2 : list json) {struct l1} : option bool :=
         match l1, l2 with
         | [], [] => Some false
         | [], _ :: _ => Some true
         | _ :: _, [] => Some false
         | x :: l1', y :: l2' => if py_eq x y then items l1' l2' else py_lt x y
         end) l1 l2
  | _, _ => None
  end.

(** [l[:n]]: the first [n] items, or all but the last [-n] when [n < 0]. *)
Definition slice_to {A} (n : Z) (l : list A) : list A :=
  if 0 <=? n then take (Z.to_nat n) l
  else take (length l - Z.to_nat (- n))%nat l.

(** ** Exceptions

    The classes that the handlers of main.py tell apart.  Every class
    derives from [Exception]; [HTTPError] (raised by [raise_for_status])
    derives from [RequestException], [ModuleNotFoundError] from
    [ImportError].  [HTTPException] is FastAPI's and carries the status and
    the detail of the reply. *)

Inductive exn_class : Type :=
| Exception
| RequestException
| HTTPError
| ImportError
| ModuleNotFoundError
| AttributeError
| TypeError.

Inductive exn : Type :=
| PyExn (c : exn_class) (text : string)
| HTTPException (status_code : Z) (detail : string).

Definition derives (c d : exn_class) : bool :=
  match d, c with
  | Exception, _ => true
  | RequestException, (RequestException | HTTPError) => true
  | HTTPError, HTTPError => true
  | ImportError, (ImportError | ModuleNotFoundError) => true
  | ModuleNotFoundError, ModuleNotFoundError => true
  | AttributeError, AttributeError => true
  | TypeError, TypeError => true
  | _, _ => false
  end.

(** [isinstance(e, c)], which is what [except c] tests *)
Definition isinstance (e : exn) (c : exn_class) : bool :=
  match e with
  | PyExn c' _ => derives c' c
  | HTTPException _ _ => derives Exception c
  end.

(** [str(e)] *)
Definition str (e : exn) : string :=
  match e with
  | PyExn _ text => text
  | HTTPException s d => pretty s +:+ ": " +:+ d
  end.

(** ** Programs: state and exceptions

    An expression either has a value or raises: a [result].  A program runs
    on a state [S] and returns a value or raises; what it did to the state
    before raising stays done, as for a Python object mutated inside a
    [try]. *)

Definition result (A : Type) : Type := (exn + A)%type.

Global Instance result_ret : MRet result := λ A a, inr a.
Global Instance result_bind : MBind result := λ A B k m,
  match m with
  | inr a => k a
  | inl e => inl e
  end.

Definition prog (S A : Type) : Type := S → result A * S.

Global Instance prog_ret {S} : MRet (prog S) := λ A a s, (inr a, s).
Global Instance prog_bind {S} : MBind (prog S) := λ A B k m s,
  match m s with
  | (inr a, s') => k a s'
  | (inl e, s') => (inl e, s')
  end.

Definition lift {S A} (r : result A) : prog S A := λ s, (r, s).
Definition raise {S A} (e : exn) : prog S A := lift (inl e).
Definition modify {S} (f : S → S) : prog S unit := λ s, (inr tt, f s).
Definition get_state {S} : prog S S := λ s, (inr s, s).

(** [try: body  except ...: handler].  [handler e] is [None] when no
    [except] clause matches [e], which then propagates. *)
Definition try_except {S A} (body : prog S A)
    (handler : exn → option (prog S A)) : prog S A :=
  λ s, match body s with
       | (inr a, s') => (inr a, s')
       | (inl e, s') =>
           match handler e with
           | Some h => h s'
           | None => (inl e, s')
           end
       end.

(** ** The [requests] client

    [requests.get] either raises a [RequestException] (connection refused,
    DNS failure, timeout, too many redirects) or returns a response.
    [raise_for_status] raises [HTTPError] for a status in 400..599 and for
    no other status.  [r.json()] returns the decoded body or raises; the
    class of what it raises is left to the response ([JSONDecodeError]
    derives from [RequestException] in requests 2.27 and later, from
    [ValueError] only before). *)

Record Response : Type := {
  status_code : Z;
  reason : string;
  url : string;
  decoded : exn_class * string + json
}.

Inductive get_outcome : Type :=
| GetRaises (text : string)
| GetReturns (r : Response).

(** One outbound call, as the handler issued it. *)
Record call : Type := { call_url : string; call_accept : string; call_timeout : Z }.

(** The variable [http_error_msg] of [raise_for_status] *)
Definition http_error_msg (r : Response) : option string :=
  if (400 <=? status_code r) && (status_code r <? 500) then
    Some (pretty (status_code r) +:+ " Client Error: " +:+ reason r
            +:+ " for url: " +:+ url r)
  else if (500 <=? status_code r) && (status_code r <? 600) then
    Some (pretty (status_code r) +:+ " Server Error: " +:+ reason r
            +:+ " for url: " +:+ url r)
  else None.

(** [r.json()] *)
Definition json_ (r : Response) : result json :=
  match decoded r with
  | inl (c, text) => inl (PyExn c text)
  | inr v => inr v
  end.

Definition raise_for_status (r : Response) : result unit :=
  match http_error_msg r with
  | Some msg => inl (PyExn HTTPError msg)
  | None => mret tt
  end.

(** ** The FastAPI layer

    A handler that returns gives a 200 reply with the value as JSON; an
    [HTTPException] gives its status and [{"detail": ...}]; any other
    exception leaving the handler gives 500.  A query that fails validation
    gives 422 and the handler is not entered. *)

Inductive reply : Type :=
| Reply (status : Z) (body : json)
| Unprocessable (params : list string).

Definition reply_status (r : reply) : Z :=
  match r with
  | Reply s _ => s
  | Unprocessable _ => 422
  end.

Definition respond (r : result json) : reply :=
  match r with
  | inr v => Reply 200 v
  | inl (HTTPException s d) => Reply s (JObj {[ "detail" := JStr d ]})
  | inl (PyExn _ _) => Reply 500 (JStr "Internal Server Error")
  end.

Definition serve {S} (handler : prog S json) : S → reply * S :=
  λ s, let '(r, s') := handler s in (respond r, s').

Definition reject {S} (params : list string) : S → reply * S :=
  λ s, (Unprocessable params, s).

(** [Query(...)]: a required parameter *)
Definition required {A} (name : string) (v : option A) : list string :=
  match v with Some _ => [] | None => [name] end.

(** [Query(dflt, ge=lo, le=hi)]: an integer with a default and bounds *)
Definition bounded (name : string) (lo hi : Z) (v : option Z) : list string :=
  match v with
  | Some n => if (lo <=? n) && (n <=? hi) then [] else [name]
  | None => []
  end.

(** ** The handlers of main.py *)

Section Handlers.

(** The upstream: what [requests.get] does for each URL. *)
Variable upstream : string → get_outcome.

(** The state of a GitHub handler is the log of its outbound calls. *)
Definition requests_get (u : string) (accept : string) (timeout : Z)
  : prog (list call) Response :=
  λ log,
    let log' := (log ++ [{| call_url := u; call_accept := accept;
                            call_timeout := timeout |}])%list in
    match upstream u with
    | GetRaises text => (inl (PyExn RequestException text), log')
    | GetReturns r => (inr r, log')
    end.

(** [v.get]: only a dict has the method. *)
Definition get_method (v : json) : result obj :=
  match v with
  | JObj d => mret d
  | _ => inl (PyExn AttributeError "object has no attribute 'get'")
  end.

(** Lines 36-49: the fields selected from the upstream user. *)
Definition profile_of (data : obj) : obj :=
  list_to_map [
    ("login", dict_get data "login");
    ("name", py_or (dict_get data "name") (dict_get data "login"));
    ("avatar_url", dict_get data "avatar_url");
    ("bio", dict_get data "bio");
    ("location", dict_get data "location");
    ("blog", dict_get data "blog");
    ("html_url", dict_get data "html_url");
    ("followers", dict_get data "followers");
    ("following", dict_get data "following");
    ("public_repos", dict_get data "public_repos");
    ("company", dict_get data "company");
    ("twitter_username", dict_get data "twitter_username")
  ].

(** Line 28 *)
Definition profile_url (username : string) : string :=
  "https://api.github.com/users/" +:+ username.

Definition github_profile (username : string) : prog (list call) json :=
  try_except
    (r ← requests_get (profile_url username) "application/vnd.github+json" 10;
     (if status_code r =? 404
      then raise (HTTPException 404 "GitHub user not found")
      else mret tt);;
     lift (raise_for_status r);;
     data ← lift (json_ r);
     data ← lift (get_method data);
     mret (JObj (profile_of data)))
    (λ e, if isinstance e RequestException
          then Some (raise (HTTPException 502 ("GitHub API error: " +:+ str e)))
          else None).

(** [GET /api/github/profile?username=...] *)
Definition get_api_github_profile (username : option string)
  : list call → reply * list call :=
  match username with
  | Some name => serve (github_profile name)
  | None => reject ["username"]
  end.

(** Lines 68-79: the summary of one repository. *)
Definition summary_of (repo : obj) : obj :=
  list_to_map [
    ("name", dict_get repo "name");
    ("full_name", dict_get repo "full_name");
    ("description", dict_get repo "description");
    ("html_url", dict_get repo "html_url");
    ("homepage", dict_get repo "homepage");
    ("language", dict_get repo "language");
    ("stargazers_count", dict_get_default repo "stargazers_count" (JInt 0));
    ("fork", dict_get_default repo "fork" (JBool false));
    ("topics", dict_get_default repo "topics" (JArr []));
    ("updated_at", dict_get repo "updated_at")
  ].

(** Line 81: the condition of the comprehension *)
Definition selected (include_forks : bool) (repo : obj) : bool :=
  include_forks || negb (truthy (dict_get_default repo "fork" (JBool false))).

(** Lines 67-82: the comprehension over the items of a list.  An item
    that is not a dict has no [get]. *)
Fixpoint comprehension (include_forks : bool) (items : list json)
  : result (list obj) :=
  match items with
  | [] => mret []
  | item :: rest =>
      repo ← get_method item;
      if selected include_forks repo
      then tl ← comprehension include_forks rest; mret (summary_of repo :: tl)
      else comprehension include_forks rest
  end.

(** [for repo in repos]: a list gives its items; a dict gives its keys and
    a str its characters, which are str and have no [get]; the rest is not
    iterable. *)
Definition for_repo_in (include_forks : bool) (repos : json)
  : result (list obj) :=
  match repos with
  | JArr items => comprehension include_forks items
  | JObj m =>
      if bool_decide (dom m = ∅) then mret []
      else inl (PyExn AttributeError "'str' object has no attribute 'get'")
  | JStr s =>
      if String.eqb s "" then mret []
      else inl (PyExn AttributeError "'str' object has no attribute 'get'")
  | _ => inl (PyExn TypeError "object is not iterable")
  end.

(** Line 84: the key of the sort *)
Definition sort_key (x : obj) : json * json :=
  (dict_get_default x "stargazers_count" (JInt 0),
   py_or (dict_get x "updated_at") (JStr "")).

(** [a < b] on two keys, tuples of two components: decided by the first
    component where they differ by [==]; [None] is the [TypeError] of [<]
    on that component. *)
Definition tuple_lt (a b : json * json) : option bool :=
  if negb (py_eq a.1 b.1) then py_lt a.1 b.1
  else if negb (py_eq a.2 b.2) then py_lt a.2 b.2
  else Some false.

(** Every two keys of the list can be compared. *)
Fixpoint comparable (ks : list (json * json)) : bool :=
  match ks with
  | [] => true
  | k :: ks' =>
      forallb (λ k', bool_decide (is_Some (tuple_lt k k'))
                     && bool_decide (is_Some (tuple_lt k' k))) ks'
      && comparable ks'
  end.

(** An item is placed after the items with a greater key and before those
    with an equal or smaller key that followed it in the list. *)
Fixpoint insert_reverse (x : obj) (l : list obj) : list obj :=
  match l with
  | [] => [x]
  | y :: l' =>
      match tuple_lt (sort_key x) (sort_key y) with
      | Some true => y :: insert_reverse x l'
      | _ => x :: y :: l'
      end
  end.

(** Line 84: [list.sort(key=..., reverse=True)].  The sort compares keys
    with [<] and nothing else.  When every two keys of the list can be
    compared no comparison raises, and the result is the stable descending
    arrangement, whatever the keys are: integers, booleans, strings, nulls
    that are all equal, lists.  When two keys of the list cannot be
    compared the sort raises [TypeError], whatever its merge strategy: no
    key that can be compared with both lies between them, so their order
    is not settled without comparing them, or keys equal to them.  A list
    of one item or none is never compared. *)
Definition list_sort (l : list obj) : result (list obj) :=
  if comparable (sort_key <$> l) then mret (foldr insert_reverse [] l)
  else inl (PyExn TypeError "'<' not supported between instances").

(** Line 61 *)
Definition repos_url (username : string) : string :=
  "https://api.github.com/users/" +:+ username
    +:+ "/repos?per_page=100&type=public&sort=updated".

Definition github_repos (username : string) (limit : Z) (include_forks : bool)
  : prog (list call) json :=
  try_except
    (r ← requests_get (repos_url username) "application/vnd.github+json" 15;
     lift (raise_for_status r);;
     repos ← lift (json_ r);
     filtered ← lift (for_repo_in include_forks repos);
     filtered ← lift (list_sort filtered);
     mret (JArr (JObj <$> slice_to limit filtered)))
    (λ e, if isinstance e RequestException
          then Some (raise (HTTPException 502 ("GitHub API error: " +:+ str e)))
          else None).

(** [GET /api/github/repos?username=...&limit=...&include_forks=...]:
    [username] is required, [limit] is [Query(6, ge=1, le=50)] and
    [include_forks] is [Query(False)].  The parameters are taken as the
    framework parsed them; a [limit] that is not an integer never gets
    this far. *)
Definition get_api_github_repos (username : option string)
    (limit : option Z) (include_forks : option bool)
  : list call → reply * list call :=
  match username, bounded "limit" 1 50 limit with
  | Some name, [] =>
      serve (github_repos name (default 6 limit) (default false include_forks))
  | _, errors => reject (required "username" username ++ errors)%list
  end.

End Handlers.

(** ** The diagnostics handler

    What [test_database] finds around it: the outcome of
    [from database import db], and the process environment. *)

Record Database : Type := {
  (** [getattr(db, 'name')] *)
  db_name : exn + json;
  (** [db.list_collection_names()] *)
  db_list_collection_names : exn + list json
}.

Inductive import_outcome : Type :=
| ImportRaises (e : exn)
| ImportBinds (db : option Database).

Record world : Type := {
  database_import : import_outcome;
  environ : gmap string string
}.

Section Diagnostics.

Variable w : world.

Definition import_db : prog obj (option Database) :=
  match database_import w with
  | ImportRaises e => raise e
  | ImportBinds db => mret db
  end.

(** [hasattr(o, n)] is false when the lookup raises [AttributeError] and
    lets any other exception through. *)
Definition hasattr_name (db : Database) : prog obj bool :=
  match db_name db with
  | inr _ => mret true
  | inl e => if isinstance e AttributeError then mret false else raise e
  end.

Definition getattr_name (db : Database) : prog obj json :=
  match db_name db with
  | inr v => mret v
  | inl e => raise e
  end.

Definition list_collection_names (db : Database) : prog obj (list json) :=
  match db_list_collection_names db with
  | inr l => mret l
  | inl e => raise e
  end.

(** [os.getenv(k)] *)
Definition getenv (k : string) : json :=
  match environ w !! k with
  | Some v => JStr v
  | None => JNull
  end.

(** [response[k] = v] *)
Definition setitem (k : string) (v : json) : prog obj unit :=
  modify (insert k v).

(** Lines 92-99 *)
Definition initial_response : obj :=
  list_to_map [
    ("backend", JStr "✅ Running");
    ("database", JStr "❌ Not Available");
    ("database_url", JNull);
    ("database_name", JNull);
    ("connection_status", JStr "Not Connected");
    ("collections", JArr [])
  ].

(** Lines 101-124 *)
Definition probe : prog obj unit :=
  try_except
    (db ← import_db;
     match db with
     | Some db =>
         setitem "database" (JStr "✅ Available");;
         setitem "database_url" (JStr "✅ Configured");;
         has ← hasattr_name db;
         name ← (if has : bool then getattr_name db
                 else mret (JStr "✅ Connected"));
         setitem "database_name" name;;
         setitem "connection_status" (JStr "Connected");;
         try_except
           (collections ← list_collection_names db;
            setitem "collections" (JArr (slice_to 10 collections));;
            setitem "database" (JStr "✅ Connected & Working"))
           (λ e, if isinstance e Exception
                 then Some (setitem "database"
                   (JStr ("⚠️  Connected but Error: " +:+ PyStr.take 50 (str e))))
                 else None)
     | None => setitem "database" (JStr "⚠️  Available but not initialized")
     end)
    (λ e, if isinstance e ImportError
          then Some (setitem "database"
            (JStr "❌ Database module not found (run enable-database first)"))
          else if isinstance e Exception
          then Some (setitem "database"
            (JStr ("❌ Error: " +:+ PyStr.take 50 (str e))))
          else None).

(** Lines 90-131.  The state is the dict [response]. *)
Definition test_database : prog obj json :=
  modify (λ _, initial_response);;
  probe;;
  setitem "database_url"
    (JStr (if truthy (getenv "DATABASE_URL") then "✅ Set" else "❌ Not Set"));;
  setitem "database_name"
    (JStr (if truthy (getenv "DATABASE_NAME") then "✅ Set" else "❌ Not Set"));;
  response ← get_state;
  mret (JObj response).

(** [GET /test] *)
Definition get_test : reply := (serve test_database ∅).1.

End Diagnostics.

(** ** Vocabulary of the properties *)

(** A field of an item of a reply *)
Definition field (k : string) (x : json) : option json :=
  match x with
  | JObj m => m !! k
  | _ => None
  end.

(** The [updated_at] of an item, an absent one read as the empty string *)
Definition updated_at (x : json) : string :=
  match field "updated_at" x with
  | Some (JStr s) => s
  | _ => ""
  end.

(** [a] may stand immediately before [b]: more stars, or as many and
    [a.updated_at >= b.updated_at]. *)
Definition in_order (a b : json) : Prop :=
  ∃ na nb,
    field "stargazers_count" a = Some (JInt na) ∧
    field "stargazers_count" b = Some (JInt nb) ∧
    (na > nb ∨ (na = nb ∧ PyStr.le (updated_at b) (updated_at a) = true)).

(** A raw repository as GitHub sends it, as far as the sort reads it:
    [stargazers_count] is an integer when present, [updated_at] is a string
    or null when present. *)
Definition typed_repo (repo : obj) : bool :=
  match repo !! "stargazers_count" with
  | None | Some (JInt _) => true
  | _ => false
  end &&
  match repo !! "updated_at" with
  | None | Some JNull | Some (JStr _) => true
  | _ => false
  end.

(** [fork] is a boolean when present. *)
Definition typed_fork (repo : obj) : bool :=
  match repo !! "fork" with
  | None | Some (JBool _) => true
  | _ => false
  end.

(** An exception of the interpreter that no [except] clause of the GitHub
    handlers catches. *)
Definition internal (e : exn) : Prop :=
  match e with
  | PyExn c _ => derives c RequestException = false
  | HTTPException _ _ => False
  end.

(** The keys of a diagnostics report *)
Definition report_keys : list string :=
  ["backend"; "database"; "database_url"; "database_name";
   "connection_status"; "collections"].

(** The flag that [/test] shows for an environment variable *)
Definition flag (w : world) (k : string) : json :=
  JStr match environ w !! k with
       | Some v => if String.eqb v "" then "❌ Not Set" else "✅ Set"
       | None => "❌ Not Set"
       end.



(** An upstream that answers every request with one response *)
Definition answer (status : Z) (why : string) (body : json)
  : string → get_outcome :=
  λ u, GetReturns {| status_code := status; reason := why; url := u;
                     decoded := inr body |}.

(** A raw repository with the three fields that the handler reads *)
Definition raw_repo (stars : Z) (is_fork : bool) (updated : string) : obj :=
  list_to_map [("stargazers_count", JInt stars); ("fork", JBool is_fork);
               ("updated_at", JStr updated)].

(** Three repositories, the second one a fork *)
Definition three_repos : list obj :=
  [raw_repo 5 false "2023-01-01"; raw_repo 5 true "2023-06-01";
   raw_repo 2 false "2024-01-01"].

(** An upstream that lists them *)
Definition listing : string → get_outcome :=
  answer 200 "OK" (JArr (JObj <$> three_repos)).

(** A user without a [name], and one whose [name] is the empty string *)
Definition octocat_user : obj := {[ "login" := JStr "octocat" ]}.
Definition blank_name_user : obj :=
  <["name" := JStr ""]> {[ "login" := JStr "octocat" ]}.

(** A store whose enumeration fails with a text of 60 characters, and one
    whose import fails with a text of 52 characters, accents included *)
Definition sixty : string :=
  "012345678901234567890123456789012345678901234567890123456789".
Definition failing_store : world :=
  {| database_import := ImportBinds (Some
       {| db_name := inr (JStr "portfolio");
          db_list_collection_names := inl (PyExn Exception sixty) |});
     environ := {[ "DATABASE_URL" := "mongodb://localhost" ]} |}.
Definition failing_import : world :=
  {| database_import := ImportRaises (PyExn Exception ("éé" +:+ PyStr.take 50 sixty));
     environ := ∅ |}.

(** A key made of an int and a str, the key of a repository as GitHub
    documents it *)
Definition typed_key (k : json * json) : option (Z * string) :=
  match k with
  | (JInt n, JStr s) => Some (n, s)
  | _ => None
  end.

(** [a < b] on tuples [(int, str)]: decided by the first component where
    they differ. *)
Definition key_lt (a b : Z * string) : bool :=
  if negb (a.1 =? b.1) then a.1 <? b.1
  else if negb (String.eqb a.2 b.2) then PyStr.lt a.2 b.2
  else false.

(** The sort as it acts on items that carry such a key: [insert_reverse]
    and [list_sort] on the decorated list. *)
Fixpoint insert_desc {A} (kx : Z * string * A) (l : list (Z * string * A))
  : list (Z * string * A) :=
  match l with
  | [] => [kx]
  | ky :: l' =>
      if key_lt kx.1 ky.1 then ky :: insert_desc kx l'
      else kx :: ky :: l'
  end.

Definition sort_desc {A} (l : list (Z * string * A)) : list (Z * string * A) :=
  foldr insert_desc [] l.

Fixpoint decorate (l : list obj) : option (list (Z * string * obj)) :=
  match l with
  | [] => Some []
  | x :: l' =>
      match typed_key (sort_key x), decorate l' with
      | Some k, Some kl => Some ((k, x) :: kl)
      | _, _ => None
      end
  end.

(** The order of the decorated items that the sort establishes *)
Definition ge_key {A} (a b : Z * string * A) : Prop := key_lt a.1 b.1 = false.

(** ** Vocabulary of the further properties *)

(** The outbound call of each GitHub handler: lines 30 and 63 *)
Definition profile_call (name : string) : call :=
  {| call_url := profile_url name;
     call_accept := "application/vnd.github+json"; call_timeout := 10 |}.
Definition repos_call (name : string) : call :=
  {| call_url := repos_url name;
     call_accept := "application/vnd.github+json"; call_timeout := 15 |}.

(** A [limit] that passes [Query(6, ge=1, le=50)] *)
Definition valid_limit (limit : option Z) : bool :=
  match limit with
  | Some n => (1 <=? n) && (n <=? 50)
  | None => true
  end.

(** The keys of a profile and of a repository summary *)
Definition profile_keys : list string :=
  ["login"; "name"; "avatar_url"; "bio"; "location"; "blog"; "html_url";
   "followers"; "following"; "public_repos"; "company"; "twitter_username"].
Definition summary_keys : list string :=
  ["name"; "full_name"; "description"; "html_url"; "homepage"; "language";
   "stargazers_count"; "fork"; "topics"; "updated_at"].

(** The two replies of failure *)
Definition upstream_error (text : string) : reply :=
  Reply 502 (JObj {[ "detail" := JStr ("GitHub API error: " +:+ text) ]}).
Definition internal_error : reply := Reply 500 (JStr "Internal Server Error").

(** The text of the [RequestException] that an exchange with upstream ends
    in, if it does: raised by [requests.get], by [raise_for_status] or by
    [r.json()]. *)
Definition request_exception (o : get_outcome) : option string :=
  match o with
  | GetRaises text => Some text
  | GetReturns r =>
      match http_error_msg r, decoded r with
      | Some msg, _ => Some msg
      | None, inl (c, text) =>
          if derives c RequestException then Some text else None
      | None, inr _ => None
      end
  end.

(** The sort key of an item of a reply *)
Definition item_key (x : json) : option (Z * string) :=
  match x with
  | JObj m => typed_key (sort_key m)
  | _ => None
  end.

(** The value of a number, a [bool] being 1 or 0, and the order of two
    items by the number of their stars *)
Definition number (v : json) : option Z :=
  match v with
  | JInt n => Some n
  | JBool b => Some (Z.b2z b)
  | _ => None
  end.
Definition stars_ge (a b : obj) : Prop :=
  ∃ na nb, number (sort_key a).1 = Some na ∧ number (sort_key b).1 = Some nb ∧
           nb ≤ na.

(** The store answers the lookup of [name], or has no such attribute. *)
Definition name_found (db : Database) : Prop :=
  ∀ e, db_name db = inl e → isinstance e AttributeError = true.

(** The probe gets as far as line 109: a handle, and no fault before the
    enumeration. *)
Definition reached (w : world) : Prop :=
  ∃ db, database_import w = ImportBinds (Some db) ∧ name_found db.

(** The enumeration returns [names]. *)
Definition enumerated (w : world) (names : list json) : Prop :=
  ∃ db, database_import w = ImportBinds (Some db) ∧ name_found db ∧
        db_list_collection_names db = inr names.

(** Two repositories of one sort key, a fork and its source, and an
    upstream that lists them; one that lists two repositories, the one of
    fewer stars first; the three repositories in the opposite order *)
Definition twins : list obj :=
  [raw_repo 5 true "2023-01-01"; raw_repo 5 false "2023-01-01"].
Definition two_repos : list obj :=
  [raw_repo 2 false "2024-01-01"; raw_repo 5 false "2023-01-01"].
Definition three_repos_back : list obj :=
  [raw_repo 2 false "2024-01-01"; raw_repo 5 true "2023-06-01";
   raw_repo 5 false "2023-01-01"].
Definition lists (repos : list obj) : string → get_outcome :=
  answer 200 "OK" (JArr (JObj <$> repos)).

(** ** Properties of the sort *)

Section Sorting.

Context {A : Type}.
Implicit Types (l : list (Z * string * A)) (kx : Z * string * A).

Lemma string_compare_refl (s : string) : String.compare s s = Eq.
Proof.
  pose proof (String.compare_antisym s s) as H.
  destruct (String.compare s s); simpl in H; congruence.
Qed.

Lemma string_ltb_asym (a b : string) :
  String.ltb a b = true → String.ltb b a = false.
Proof.
  unfold String.ltb. rewrite (String.compare_antisym b a).
  destruct (String.compare a b); simpl; congruence.
Qed.

Lemma string_ltb_false_leb (a b : string) :
  String.ltb a b = false → String.leb b a = true.
Proof.
  unfold String.ltb, String.leb. rewrite (String.compare_antisym b a).
  destruct (String.compare a b); simpl; congruence.
Qed.

Lemma key_lt_irrefl (k : Z * string) : key_lt k k = false.
Proof.
  unfold key_lt. rewrite Z.eqb_refl. simpl. by rewrite String.eqb_refl.
Qed.

Lemma key_lt_asym (a b : Z * string) : key_lt a b = true → key_lt b a = false.
Proof.
  unfold key_lt. destruct a as [na sa], b as [nb sb]; simpl.
  rewrite (Z.eqb_sym nb na), (String.eqb_sym sb sa).
  destruct (Z.eqb_spec na nb) as [->|Hn]; simpl.
  - destruct (String.eqb sa sb); simpl; [done|]. apply string_ltb_asym.
  - intros H%Z.ltb_lt. apply Z.ltb_ge. lia.
Qed.

Lemma insert_desc_perm kx l : insert_desc kx l ≡ₚ kx :: l.
Proof.
  induction l as [|ky l IH]; simpl; [done|].
  destruct (key_lt kx.1 ky.1); [|done].
  rewrite IH. apply Permutation_swap.
Qed.

Lemma sort_desc_perm l : sort_desc l ≡ₚ l.
Proof.
  induction l as [|kx l IH]; simpl; [done|].
  unfold sort_desc in *. simpl. by rewrite insert_desc_perm, IH.
Qed.

Lemma insert_desc_hd (ky kx : Z * string * A) l :
  ge_key ky kx → HdRel ge_key ky l → HdRel ge_key ky (insert_desc kx l).
Proof.
  intros Hx Hl. destruct l as [|kz l]; simpl; [by constructor|].
  destruct (key_lt kx.1 kz.1); constructor; [|done].
  by inversion Hl.
Qed.

Lemma insert_desc_sorted kx l :
  Sorted ge_key l → Sorted ge_key (insert_desc kx l).
Proof.
  induction 1 as [|ky l Hs IH Hhd]; simpl; [by repeat constructor|].
  destruct (key_lt kx.1 ky.1) eqn:Hlt.
  - constructor; [done|]. apply insert_desc_hd; [|done].
    by apply key_lt_asym.
  - constructor; [by constructor|]. by constructor.
Qed.

Lemma sort_desc_sorted l : Sorted ge_key (sort_desc l).
Proof.
  induction l as [|kx l IH]; [constructor|].
  by apply insert_desc_sorted.
Qed.

End Sorting.

(** ** The pipeline of [github_repos]: comprehension, sort, slice *)

Section Pipeline.

Implicit Types (repo x y : obj) (repos l : list obj) (f : bool).

Global Instance JObj_inj : Inj (=) (=) JObj.
Proof. by intros m1 m2 [= ->]. Qed.

Lemma filter_all {B} (P : B → Prop) `{!∀ b, Decision (P b)} (bs : list B) :
  (∀ b, P b) → filter P bs = bs.
Proof.
  intros HP. induction bs as [|b bs IH]; [done|].
  by rewrite filter_cons_True, IH.
Qed.

Lemma summary_stars repo :
  summary_of repo !! "stargazers_count"
  = Some (dict_get_default repo "stargazers_count" (JInt 0)).
Proof. reflexivity. Qed.

Lemma summary_updated repo :
  summary_of repo !! "updated_at" = Some (dict_get repo "updated_at").
Proof. reflexivity. Qed.

Lemma summary_fork repo :
  summary_of repo !! "fork"
  = Some (dict_get_default repo "fork" (JBool false)).
Proof. reflexivity. Qed.

Lemma comprehension_objs f repos :
  comprehension f (JObj <$> repos)
  = inr (summary_of <$> filter (λ repo, selected f repo) repos).
Proof.
  induction repos as [|repo repos IH]; csimpl; [done|].
  unfold mbind, result_bind at 1. csimpl. rewrite filter_cons.
  destruct (selected f repo) eqn:Hsel; csimpl.
  - rewrite IH. done.
  - done.
Qed.

Lemma comprehension_inv f items l :
  comprehension f items = inr l → ∃ repos, items = JObj <$> repos.
Proof.
  revert l. induction items as [|item items IH]; intros l; csimpl.
  - by exists [].
  - destruct item; csimpl; try discriminate.
    unfold mbind, result_bind. csimpl.
    destruct (selected f m); csimpl.
    + destruct (comprehension f items) as [e|tl] eqn:Htl; [discriminate|].
      destruct (IH tl eq_refl) as [repos ->]. intros _. by exists (m :: repos).
    + intros H. destruct (IH l H) as [repos ->]. by exists (m :: repos).
Qed.

Lemma internal_uncaught e :
  internal e → isinstance e RequestException = false.
Proof. by destruct e. Qed.

Lemma internal_500 e :
  internal e → respond (inl e) = Reply 500 (JStr "Internal Server Error").
Proof. by destruct e. Qed.

Lemma comprehension_exn f items e :
  comprehension f items = inl e → internal e.
Proof.
  induction items as [|item items IH]; csimpl; [discriminate|].
  destruct item; csimpl; try (intros [= <-]; reflexivity).
  unfold mbind, result_bind. csimpl.
  destruct (selected f m); csimpl; [|done].
  destruct (comprehension f items) as [e'|tl]; [|discriminate].
  intros [= <-]. by apply IH.
Qed.

(** What the loop returns is the summaries of the selected items. *)
Lemma for_repo_in_inv f v l :
  for_repo_in f v = inr l →
  ∃ repos, l = summary_of <$> filter (λ repo, selected f repo) repos ∧
           ∀ items, v = JArr items → items = JObj <$> repos.
Proof.
  destruct v; csimpl; try discriminate.
  - destruct (String.eqb s ""); [|discriminate].
    intros [= <-]. exists []. split; [done|]. discriminate.
  - intros H. destruct (comprehension_inv _ _ _ H) as [repos ->].
    rewrite comprehension_objs in H. injection H as <-.
    exists repos. split; [done|]. by intros ? [= <-].
  - destruct (bool_decide (dom m = ∅)); [|discriminate].
    intros [= <-]. exists []. split; [done|]. discriminate.
Qed.

Lemma for_repo_in_exn f v e :
  for_repo_in f v = inl e → internal e.
Proof.
  destruct v; csimpl; try (intros [= <-]; reflexivity).
  - destruct (String.eqb s ""); [discriminate|]. by intros [= <-].
  - apply comprehension_exn.
  - destruct (bool_decide (dom m = ∅)); [discriminate|]. by intros [= <-].
Qed.

Lemma decorate_snd l kl : decorate l = Some kl → kl.*2 = l.
Proof.
  revert kl. induction l as [|x l IH]; intros kl; cbn [decorate].
  - by intros [= <-].
  - destruct (typed_key (sort_key x)) as [k|]; [|discriminate].
    destruct (decorate l) as [kl'|]; [|discriminate].
    intros [= <-]. csimpl. by rewrite (IH kl').
Qed.

Lemma decorate_keys l kl :
  decorate l = Some kl →
  Forall (λ kx, typed_key (sort_key kx.2) = Some kx.1) kl.
Proof.
  revert kl. induction l as [|x l IH]; intros kl; cbn [decorate].
  - intros [= <-]. constructor.
  - destruct (typed_key (sort_key x)) as [k|] eqn:Hk; [|discriminate].
    destruct (decorate l) as [kl'|]; [|discriminate].
    intros [= <-]. constructor; [done|]. by apply IH.
Qed.

Lemma list_sort_exn l e :
  list_sort l = inl e → internal e.
Proof.
  unfold list_sort. destruct (comparable _); [discriminate|]. by intros [= <-].
Qed.

(** A sort that returns has found every two keys comparable. *)
Lemma list_sort_returns l l' :
  list_sort l = inr l' →
  comparable (sort_key <$> l) = true ∧ l' = foldr insert_reverse [] l.
Proof.
  unfold list_sort. destruct (comparable _); [|discriminate].
  by intros [= <-].
Qed.

Lemma insert_reverse_perm x l : insert_reverse x l ≡ₚ x :: l.
Proof.
  induction l as [|y l IH]; simpl; [done|].
  destruct (tuple_lt _ _) as [[]|]; [|done..].
  rewrite IH. apply Permutation_swap.
Qed.

Lemma sorted_reverse_perm l : foldr insert_reverse [] l ≡ₚ l.
Proof.
  induction l as [|x l IH]; simpl; [done|].
  by rewrite insert_reverse_perm, IH.
Qed.

Lemma list_sort_perm l l' : list_sort l = inr l' → l' ≡ₚ l.
Proof. intros [_ ->]%list_sort_returns. apply sorted_reverse_perm. Qed.

(** On keys [(int, str)] the comparison of Python is [key_lt], every two
    keys are comparable, and the sort is the sort of the decorated list. *)
Lemma tuple_lt_typed (k1 k2 : json * json) (t1 t2 : Z * string) :
  typed_key k1 = Some t1 → typed_key k2 = Some t2 →
  tuple_lt k1 k2 = Some (key_lt t1 t2).
Proof.
  destruct k1 as [[] []], k2 as [[] []]; simpl; try discriminate.
  intros [= <-] [= <-]. unfold tuple_lt, key_lt. simpl.
  by repeat destruct (negb _).
Qed.

Lemma comparable_typed (ks : list (json * json)) :
  Forall (λ k, is_Some (typed_key k)) ks → comparable ks = true.
Proof.
  induction 1 as [|k ks [t Ht] Hks IH]; [done|].
  cbn [comparable]. rewrite IH, andb_true_r.
  apply forallb_forall. intros k' Hin%list_elem_of_In.
  destruct (proj1 (Forall_forall _ _) Hks k' Hin) as [t' Ht'].
  rewrite (tuple_lt_typed k k' t t'), (tuple_lt_typed k' k t' t) by done.
  apply andb_true_iff. split; apply bool_decide_eq_true; by eexists.
Qed.

Lemma insert_reverse_decorated (k : Z * string) x
    (kl : list (Z * string * obj)) :
  typed_key (sort_key x) = Some k →
  Forall (λ kx, typed_key (sort_key kx.2) = Some kx.1) kl →
  insert_reverse x (kl.*2) = (insert_desc (k, x) kl).*2.
Proof.
  intros Hk. induction 1 as [|ky kl Hky _ IH]; [done|].
  csimpl. rewrite (tuple_lt_typed _ _ k ky.1 Hk Hky).
  destruct (key_lt k ky.1); csimpl; [by rewrite IH|done].
Qed.

Lemma list_sort_decorated l kl :
  decorate l = Some kl → list_sort l = inr ((sort_desc kl).*2).
Proof.
  intros Hd. unfold list_sort. rewrite comparable_typed.
  2: { rewrite <- (decorate_snd l kl Hd).
       apply Forall_fmap, Forall_fmap.
       eapply Forall_impl; [by apply decorate_keys with l|].
       intros kx Hkx. exists kx.1. exact Hkx. }
  f_equal. revert kl Hd.
  induction l as [|x l IH]; intros kl; cbn [decorate].
  - by intros [= <-].
  - destruct (typed_key (sort_key x)) as [k|] eqn:Hk; [|discriminate].
    destruct (decorate l) as [kl'|] eqn:Hd; [|discriminate].
    intros [= <-]. cbn [foldr]. rewrite (IH kl' eq_refl).
    apply (insert_reverse_decorated k x (sort_desc kl')); [done|].
    rewrite sort_desc_perm. by apply decorate_keys with l.
Qed.

Lemma key_stars x n s :
  typed_key (sort_key x) = Some (n, s) →
  is_Some (x !! "stargazers_count") →
  x !! "stargazers_count" = Some (JInt n).
Proof.
  intros Hk [v Hv]. unfold sort_key, dict_get_default in Hk.
  rewrite Hv in *. simpl in Hk.
  destruct v; try discriminate.
  destruct (py_or _ _); try discriminate. by injection Hk as -> _.
Qed.

Lemma key_updated x n s :
  typed_key (sort_key x) = Some (n, s) → updated_at (JObj x) = s.
Proof.
  unfold sort_key, updated_at, field, dict_get, py_or.
  destruct (dict_get_default _ _ _); try discriminate.
  destruct (x !! "updated_at") as [[| | |s'| |]|]; simpl.
  all: try (intros [= _ <-]; reflexivity).
  all: try (destruct (truthy _); [discriminate|]; intros [= _ <-]; reflexivity).
  - destruct b; [discriminate|]. by intros [= _ <-].
  - destruct (_ =? _); simpl; [|discriminate]. by intros [= _ <-].
  - destruct (String.eqb_spec s' "") as [->|]; simpl; by intros [= _ <-].
  - destruct l; [|discriminate]. by intros [= _ <-].
  - destruct (bool_decide _); simpl; [|discriminate]. by intros [= _ <-].
Qed.

Lemma key_lt_false (na nb : Z) (sa sb : string) :
  key_lt (na, sa) (nb, sb) = false →
  na > nb ∨ (na = nb ∧ PyStr.le sb sa = true).
Proof.
  unfold key_lt, PyStr.le, PyStr.lt. simpl.
  destruct (Z.eqb_spec na nb) as [->|Hn]; simpl.
  - intros H. right. split; [done|].
    destruct (String.eqb_spec sa sb) as [->|]; simpl in H.
    + unfold String.leb. by rewrite string_compare_refl.
    + by apply string_ltb_false_leb.
  - intros H%Z.ltb_ge. left. lia.
Qed.

(** A typed key orders the items as the reply shows them. *)
Lemma key_in_order x y kx ky :
  is_Some (x !! "stargazers_count") → is_Some (y !! "stargazers_count") →
  typed_key (sort_key x) = Some kx → typed_key (sort_key y) = Some ky →
  key_lt kx ky = false → in_order (JObj x) (JObj y).
Proof.
  destruct kx as [nx sx], ky as [ny sy]. intros Hx Hy Hkx Hky Hlt.
  exists nx, ny. simpl.
  rewrite (key_stars x nx sx), (key_stars y ny sy) by done.
  rewrite (key_updated x nx sx), (key_updated y ny sy) by done.
  split; [done|]. split; [done|]. by apply key_lt_false.
Qed.

Lemma list_sort_sorted l l' :
  Forall (λ x, is_Some (x !! "stargazers_count")) l →
  is_Some (decorate l) →
  list_sort l = inr l' → Sorted in_order (JObj <$> l').
Proof.
  intros Hl [kl Hd]. rewrite (list_sort_decorated l kl Hd).
  - intros [= <-].
    assert (Forall (λ kx, is_Some (kx.2 !! "stargazers_count")
              ∧ typed_key (sort_key kx.2) = Some kx.1) (sort_desc kl)) as Hall.
    { rewrite sort_desc_perm. apply Forall_and. split.
      - apply Forall_forall. intros kx Hin.
        apply (proj1 (Forall_forall _ _) Hl).
        rewrite <- (decorate_snd l kl Hd). by apply list_elem_of_fmap_2.
      - by apply decorate_keys with l. }
    pose proof (sort_desc_sorted kl) as Hs.
    induction Hs as [|kx kl' Hs IH Hhd]; csimpl; [constructor|].
    apply Forall_cons in Hall as [[Hx Hkx] Hall].
    constructor; [by apply IH|].
    destruct Hhd as [|ky kl'' Hge]; csimpl; constructor.
    apply Forall_cons in Hall as [[Hy Hky] _].
    by eapply key_in_order.
Qed.

Lemma typed_repo_key repo :
  typed_repo repo = true → is_Some (typed_key (sort_key (summary_of repo))).
Proof.
  unfold typed_repo, sort_key, dict_get_default, dict_get, py_or.
  rewrite summary_stars, summary_updated. unfold dict_get_default, dict_get.
  destruct (repo !! "stargazers_count") as [[]|]; simpl; try discriminate.
  all: destruct (repo !! "updated_at") as [[]|]; simpl; try discriminate.
  all: try destruct (negb _); by eexists.
Qed.

Lemma decorate_typed repos :
  Forall (λ repo, typed_repo repo = true) repos →
  is_Some (decorate (summary_of <$> repos)).
Proof.
  induction 1 as [|repo repos Hrepo _ [kl IH]]; [by eexists|].
  rewrite fmap_cons. cbn [decorate].
  destruct (typed_repo_key repo Hrepo) as [k ->]. rewrite IH. by eexists.
Qed.

Lemma list_sort_typed repos :
  Forall (λ repo, typed_repo repo = true) repos →
  ∃ sorted, list_sort (summary_of <$> repos) = inr sorted.
Proof.
  intros [kl Hkl]%decorate_typed. rewrite (list_sort_decorated _ kl Hkl).
  by eexists.
Qed.

Lemma typed_passing f repos :
  Forall (λ repo, typed_repo repo = true) repos →
  Forall (λ repo, typed_repo repo = true)
    (filter (λ repo, selected f repo) repos).
Proof.
  intros Htyped. apply Forall_forall. intros repo [_ Hin]%list_elem_of_filter.
  by apply (proj1 (Forall_forall _ _) Htyped).
Qed.

Lemma summaries_have_stars repos :
  Forall (λ x : obj, is_Some (x !! "stargazers_count")) (summary_of <$> repos).
Proof.
  apply Forall_fmap, Forall_forall. intros repo _. simpl.
  rewrite summary_stars. by eexists.
Qed.

(** The summaries of typed repositories sort to a list in order. *)
Lemma typed_summaries_sorted repos sorted :
  Forall (λ repo, typed_repo repo = true) repos →
  list_sort (summary_of <$> repos) = inr sorted →
  Sorted in_order (JObj <$> sorted).
Proof.
  intros Htyped. apply list_sort_sorted.
  - apply summaries_have_stars.
  - by apply decorate_typed.
Qed.

Lemma Sorted_take {B} (R : relation B) (n : nat) (l : list B) :
  Sorted R l → Sorted R (take n l).
Proof.
  intros Hs. revert n. induction Hs as [|x l Hs IH Hhd]; intros [|n]; simpl;
    try constructor; [by apply IH|].
  destruct Hhd, n; simpl; by constructor.
Qed.

Lemma slice_to_take {B} (n : Z) (l : list B) : ∃ k, slice_to n l = take k l.
Proof. unfold slice_to. destruct (0 <=? n); by eexists. Qed.

Lemma slice_to_nonneg {B} (n : Z) (l : list B) :
  0 ≤ n → slice_to n l = take (Z.to_nat n) l.
Proof. intros H. unfold slice_to. by destruct (Z.leb_spec 0 n); [|lia]. Qed.

End Pipeline.

(** ** The outcomes of the GitHub handlers *)

Section Outcomes.

Variable upstream : string → get_outcome.

Ltac run :=
  unfold github_repos, github_profile, try_except, requests_get,
    raise_for_status, raise, lift, mbind, mret, prog_bind, prog_ret.

Lemma github_repos_transport name limit f log text :
  upstream (repos_url name) = GetRaises text →
  (github_repos upstream name limit f log).1
  = inl (HTTPException 502 ("GitHub API error: " +:+ text)).
Proof. intros H. run. by rewrite H. Qed.

Lemma github_repos_http_error name limit f log r msg :
  upstream (repos_url name) = GetReturns r →
  http_error_msg r = Some msg →
  (github_repos upstream name limit f log).1
  = inl (HTTPException 502 ("GitHub API error: " +:+ msg)).
Proof. intros H Hmsg. run. by rewrite H, Hmsg. Qed.

Lemma github_repos_undecoded name limit f log r c text :
  upstream (repos_url name) = GetReturns r →
  http_error_msg r = None →
  decoded r = inl (c, text) →
  (github_repos upstream name limit f log).1
  = if derives c RequestException
    then inl (HTTPException 502 ("GitHub API error: " +:+ text))
    else inl (PyExn c text).
Proof.
  intros H Hmsg Hbody. run. unfold json_. rewrite H, Hmsg, Hbody.
  by destruct c.
Qed.

Lemma github_repos_returns name limit f log r repos :
  upstream (repos_url name) = GetReturns r →
  http_error_msg r = None →
  decoded r = inr repos →
  (github_repos upstream name limit f log).1
  = (filtered ← for_repo_in f repos;
     sorted ← list_sort filtered;
     mret (JArr (JObj <$> slice_to limit sorted))).
Proof.
  intros H Hmsg Hbody. run. unfold json_. rewrite H, Hmsg, Hbody.
  unfold result_bind, result_ret.
  destruct (for_repo_in f repos) as [e|filtered] eqn:Hfor.
  - by rewrite (internal_uncaught e (for_repo_in_exn _ _ _ Hfor)).
  - destruct (list_sort filtered) as [e|sorted] eqn:Hsort; [|done].
    by rewrite (internal_uncaught e (list_sort_exn _ _ Hsort)).
Qed.

Lemma github_profile_transport name log text :
  upstream (profile_url name) = GetRaises text →
  (github_profile upstream name log).1
  = inl (HTTPException 502 ("GitHub API error: " +:+ text)).
Proof. intros H. run. by rewrite H. Qed.

Lemma github_profile_404 name log r :
  upstream (profile_url name) = GetReturns r →
  status_code r = 404 →
  (github_profile upstream name log).1
  = inl (HTTPException 404 "GitHub user not found").
Proof. intros H H404. run. by rewrite H, H404. Qed.

Lemma github_profile_http_error name log r msg :
  upstream (profile_url name) = GetReturns r →
  status_code r ≠ 404 →
  http_error_msg r = Some msg →
  (github_profile upstream name log).1
  = inl (HTTPException 502 ("GitHub API error: " +:+ msg)).
Proof.
  intros H H404 Hmsg. run. rewrite H.
  destruct (Z.eqb_spec (status_code r) 404); [done|]. by rewrite Hmsg.
Qed.

Lemma github_profile_returns name log r data :
  upstream (profile_url name) = GetReturns r →
  status_code r ≠ 404 →
  http_error_msg r = None →
  decoded r = inr data →
  (github_profile upstream name log).1
  = (data ← get_method data; mret (JObj (profile_of data))).
Proof.
  intros H H404 Hmsg Hbody. run. unfold json_. rewrite H.
  destruct (Z.eqb_spec (status_code r) 404); [done|]. rewrite Hmsg, Hbody.
  by destruct data.
Qed.

Lemma http_error_range r :
  400 ≤ status_code r < 600 → is_Some (http_error_msg r).
Proof.
  intros H. unfold http_error_msg.
  destruct (Z.leb_spec 400 (status_code r)); [|lia].
  destruct (Z.ltb_spec (status_code r) 500); simpl; [by eexists|].
  destruct (Z.leb_spec 500 (status_code r)); [|lia].
  destruct (Z.ltb_spec (status_code r) 600); simpl; [by eexists|lia].
Qed.

Lemma http_error_none r :
  ¬ (400 ≤ status_code r < 600) → http_error_msg r = None.
Proof.
  intros H. unfold http_error_msg.
  destruct (Z.leb_spec 400 (status_code r)),
    (Z.ltb_spec (status_code r) 500); simpl; try lia.
  all: destruct (Z.leb_spec 500 (status_code r)),
    (Z.ltb_spec (status_code r) 600); simpl; try lia; done.
Qed.

Lemma serve_fst {S} (h : prog S json) (s : S) :
  (serve h s).1 = respond (h s).1.
Proof. unfold serve. by destruct (h s). Qed.

(** A 200 reply of the repositories endpoint, read backwards *)
Lemma repos_reply_200 username limit forks log body :
  (get_api_github_repos upstream username limit forks log).1 = Reply 200 body →
  ∃ name r repos sorted,
    username = Some name ∧
    bounded "limit" 1 50 limit = [] ∧
    upstream (repos_url name) = GetReturns r ∧
    http_error_msg r = None ∧
    (∀ items, decoded r = inr (JArr items) → items = JObj <$> repos) ∧
    list_sort (summary_of <$>
      filter (λ repo, selected (default false forks) repo) repos) = inr sorted ∧
    body = JArr (JObj <$> slice_to (default 6 limit) sorted).
Proof.
  unfold get_api_github_repos.
  destruct username as [name|]; [|discriminate].
  destruct (bounded "limit" 1 50 limit) eqn:Hb; [|discriminate].
  rewrite serve_fst.
  destruct (upstream (repos_url name)) as [text|r] eqn:Hup.
  { by rewrite (github_repos_transport _ _ _ _ text). }
  destruct (http_error_msg r) as [msg|] eqn:Hmsg.
  { by rewrite (github_repos_http_error _ _ _ _ r msg). }
  destruct (decoded r) as [[c text]|v] eqn:Hbody.
  { rewrite (github_repos_undecoded _ _ _ _ r c text) by done.
    by destruct (derives c RequestException). }
  rewrite (github_repos_returns _ _ _ _ r v) by done.
  unfold mbind, result_bind, mret, result_ret.
  destruct (for_repo_in _ _) as [e|filtered] eqn:Hfor.
  { by rewrite (internal_500 e (for_repo_in_exn _ _ _ Hfor)). }
  destruct (for_repo_in_inv _ _ _ Hfor) as (repos & -> & Hitems).
  destruct (list_sort _) as [e|sorted] eqn:Hsort.
  { by rewrite (internal_500 e (list_sort_exn _ _ Hsort)). }
  simpl. intros [= <-]. exists name, r, repos, sorted.
  repeat (split; [done|]). split; [|done].
  intros items Hr. rewrite Hbody in Hr. injection Hr as ->. by apply Hitems.
Qed.

End Outcomes.

(** ** The repositories endpoint *)

Section Repositories.

Variable upstream : string → get_outcome.

(** C1.  For every list of repositories that upstream sends
    ([stargazers_count] an integer or absent, [updated_at] a string, null
    or absent) and every valid query, the repositories endpoint returns a
    sequence in which any two adjacent items [a] (before) and [b] (after)
    have [a.stargazers_count > b.stargazers_count], or the same count and
    [a.updated_at >= b.updated_at] as strings, an absent [updated_at]
    being read as the empty string. *)
Theorem repos_sorted name limit forks log r repos :
  bounded "limit" 1 50 limit = [] →
  upstream (repos_url name) = GetReturns r →
  http_error_msg r = None →
  decoded r = inr (JArr (JObj <$> repos)) →
  Forall (λ repo, typed_repo repo = true) repos →
  ∃ out,
    (get_api_github_repos upstream (Some name) limit forks log).1
      = Reply 200 (JArr out) ∧
    Sorted in_order out.
Proof.
  intros Hlimit Hup Hmsg Hbody Htyped.
  set (passing := filter (λ repo, selected (default false forks) repo) repos).
  assert (Forall (λ repo, typed_repo repo = true) passing) as Hpassing
    by by apply typed_passing.
  destruct (list_sort_typed _ Hpassing) as [sorted Hsort].
  exists (JObj <$> slice_to (default 6 limit) sorted). split.
  - unfold get_api_github_repos. rewrite Hlimit.
    rewrite serve_fst, (github_repos_returns upstream _ _ _ _ r _ Hup Hmsg Hbody).
    cbn [for_repo_in]. rewrite comprehension_objs.
    unfold mbind, result_bind, mret, result_ret. fold passing.
    by rewrite Hsort.
  - destruct (slice_to_take (default 6 limit) sorted) as [k ->].
    rewrite fmap_take. apply Sorted_take.
    by apply typed_summaries_sorted with passing.
Qed.

(** C4.  For a limit in 1..50 and a list of repositories from upstream,
    the endpoint returns the first [limit] items of the sorted list of all
    the repositories that pass the fork filter: the cut comes after the
    sort, and the length is [min(limit, number of repositories that pass
    the filter)]. *)
Theorem repos_length name limit forks log r repos :
  1 ≤ limit ≤ 50 →
  upstream (repos_url name) = GetReturns r →
  http_error_msg r = None →
  decoded r = inr (JArr (JObj <$> repos)) →
  Forall (λ repo, typed_repo repo = true) repos →
  let passing := filter (λ repo, selected (default false forks) repo) repos in
  ∃ full out,
    (get_api_github_repos upstream (Some name) (Some limit) forks log).1
      = Reply 200 (JArr out) ∧
    full ≡ₚ (JObj ∘ summary_of) <$> passing ∧
    Sorted in_order full ∧
    out = take (Z.to_nat limit) full ∧
    Z.of_nat (length out) = Z.min limit (Z.of_nat (length passing)).
Proof.
  intros Hlimit Hup Hmsg Hbody Htyped passing.
  assert (Forall (λ repo, typed_repo repo = true) passing) as Hpassing.
  { apply Forall_forall. intros repo [_ Hin]%list_elem_of_filter.
    by apply (proj1 (Forall_forall _ _) Htyped). }
  destruct (list_sort_typed _ Hpassing) as [sorted Hsort].
  exists (JObj <$> sorted), (JObj <$> take (Z.to_nat limit) sorted).
  assert (sorted ≡ₚ summary_of <$> passing) as Hperm by by apply list_sort_perm.
  split; [|split; [|split; [|split]]].
  - unfold get_api_github_repos, bounded.
    replace ((1 <=? limit) && (limit <=? 50)) with true
      by (symmetry; apply andb_true_iff; lia).
    rewrite serve_fst, (github_repos_returns upstream _ _ _ _ r _ Hup Hmsg Hbody).
    cbn [for_repo_in]. rewrite comprehension_objs.
    unfold mbind, result_bind, mret, result_ret. fold passing.
    rewrite Hsort. simpl. by rewrite slice_to_nonneg by lia.
  - by rewrite Hperm, list_fmap_compose.
  - by apply typed_summaries_sorted with passing.
  - by rewrite fmap_take.
  - rewrite length_fmap, length_take, Hperm, length_fmap. lia.
Qed.

(** C2.  With [include_forks] false or omitted, every item of the returned
    sequence has [fork == false]; with [include_forks] true nothing is
    filtered out: the sequence is the first [limit] items of an
    arrangement of all the repositories, forks included. *)
Theorem repos_fork_filter name limit forks log r repos out :
  upstream (repos_url name) = GetReturns r →
  decoded r = inr (JArr (JObj <$> repos)) →
  Forall (λ repo, typed_fork repo = true) repos →
  (get_api_github_repos upstream (Some name) limit forks log).1
    = Reply 200 (JArr out) →
  (forks = None ∨ forks = Some false →
     Forall (λ x, field "fork" x = Some (JBool false)) out) ∧
  (forks = Some true →
     ∃ full, full ≡ₚ (JObj ∘ summary_of) <$> repos ∧
             out = take (Z.to_nat (default 6 limit)) full).
Proof.
  intros Hup Hbody Htyped
    (name' & r' & repos' & sorted & [= <-] & Hb & Hup' & _ & Hitems & Hsort
     & [= ->])%repos_reply_200.
  rewrite Hup in Hup'. injection Hup' as <-.
  apply Hitems, (inj (fmap JObj)) in Hbody as <-.
  pose proof (list_sort_perm _ _ Hsort) as Hperm.
  split.
  - intros Hforks. destruct (slice_to_take (default 6 limit) sorted) as [k ->].
    apply Forall_fmap, Forall_take. rewrite Hperm.
    apply Forall_fmap, Forall_forall. intros repo [Hsel Hin]%list_elem_of_filter.
    simpl. rewrite summary_fork.
    pose proof (proj1 (Forall_forall _ _) Htyped repo Hin) as Hfork.
    unfold typed_fork in Hfork. unfold selected, dict_get_default in *.
    destruct Hforks as [-> | ->]; simpl in Hsel.
    all: destruct (repo !! "fork") as [[| [] | | | |]|]; by simpl in *.
  - intros ->. exists (JObj <$> sorted). split.
    + rewrite Hperm, list_fmap_compose. by rewrite filter_all.
    + simpl. destruct (slice_to_take (default 6 limit) sorted) as [k Hk].
      rewrite slice_to_nonneg, fmap_take; [done|].
      destruct limit as [n|]; simpl in *; [|lia].
      unfold bounded in Hb. destruct (Z.leb_spec 1 n); [lia|done].
Qed.

(** C6, as the code has it.  A transport failure, or an upstream status
    in 400..599 (404 included), gives 502 with the detail
    ["GitHub API error: "] followed by the upstream error text; and the
    repositories endpoint never answers 404. *)
Theorem repos_upstream_failure username limit forks log :
  let reply := (get_api_github_repos upstream username limit forks log).1 in
  reply_status reply ≠ 404 ∧
  ∀ name, username = Some name → bounded "limit" 1 50 limit = [] →
    (∀ text, upstream (repos_url name) = GetRaises text →
       reply = Reply 502
         (JObj {[ "detail" := JStr ("GitHub API error: " +:+ text) ]})) ∧
    (∀ r, upstream (repos_url name) = GetReturns r →
       400 ≤ status_code r < 600 →
       ∃ msg, http_error_msg r = Some msg ∧
         reply = Reply 502
           (JObj {[ "detail" := JStr ("GitHub API error: " +:+ msg) ]})).
Proof.
  intros reply. subst reply. unfold get_api_github_repos. split.
  - destruct username as [name|]; [|done].
    destruct (bounded "limit" 1 50 limit); [|done].
    rewrite serve_fst.
    destruct (upstream (repos_url name)) as [text|r] eqn:Hup.
    { by rewrite (github_repos_transport _ _ _ _ _ text). }
    destruct (http_error_msg r) as [msg|] eqn:Hmsg.
    { by rewrite (github_repos_http_error _ _ _ _ _ r msg). }
    destruct (decoded r) as [[c text]|v] eqn:Hbody.
    { rewrite (github_repos_undecoded _ _ _ _ _ r c text) by done.
      by destruct (derives c RequestException). }
    rewrite (github_repos_returns _ _ _ _ _ r v) by done.
    unfold mbind, result_bind, mret, result_ret.
    destruct (for_repo_in _ _) as [e|filtered] eqn:Hfor.
    { by rewrite (internal_500 e (for_repo_in_exn _ _ _ Hfor)). }
    destruct (list_sort _) as [e|sorted] eqn:Hsort; [|done].
    by rewrite (internal_500 e (list_sort_exn _ _ Hsort)).
  - intros name -> ->. rewrite serve_fst. split.
    + intros text Hup. by rewrite (github_repos_transport _ _ _ _ _ text).
    + intros r Hup [msg Hmsg]%http_error_range. exists msg. split; [done|].
      by rewrite (github_repos_http_error _ _ _ _ _ r msg).
Qed.

(** C8.  A [limit] outside 1..50 is answered 422 and no upstream call is
    issued; a [limit] in 1..50 reaches the handler as it is, and an
    omitted one reaches it as 6: nothing is clamped. *)
Theorem repos_limit_validated username forks log :
  (∀ limit, limit < 1 ∨ 50 < limit →
     let params := (required "username" username ++ ["limit"])%list in
     get_api_github_repos upstream username (Some limit) forks log
     = (Unprocessable params, log) ∧
     reply_status (Unprocessable params) = 422) ∧
  (∀ name limit, username = Some name → 1 ≤ limit ≤ 50 →
     get_api_github_repos upstream username (Some limit) forks log
     = serve (github_repos upstream name limit (default false forks)) log) ∧
  (∀ name, username = Some name →
     get_api_github_repos upstream username None forks log
     = serve (github_repos upstream name 6 (default false forks)) log).
Proof.
  unfold get_api_github_repos, bounded, reject. split; [|split].
  - intros limit Hlimit.
    replace ((1 <=? limit) && (limit <=? 50)) with false
      by (symmetry; apply andb_false_iff; lia).
    split; [by destruct username|done].
  - intros name limit -> Hlimit.
    by replace ((1 <=? limit) && (limit <=? 50)) with true
      by (symmetry; apply andb_true_iff; lia).
  - by intros name ->.
Qed.

End Repositories.

(** ** The profile endpoint *)

Section Profile.

Variable upstream : string → get_outcome.

Lemma name_of_profile data :
  profile_of data !! "name"
  = Some (py_or (dict_get data "name") (dict_get data "login")).
Proof. reflexivity. Qed.

(** C3, as the code has it.  On a successful lookup that returns a user
    object, the [name] of the reply is the upstream [name] when that field
    is present and not falsy (not null, not the empty string), and the
    upstream [login] otherwise. *)
Theorem profile_name_or_login name log r data :
  upstream (profile_url name) = GetReturns r →
  ¬ (400 ≤ status_code r < 600) →
  decoded r = inr (JObj data) →
  ∃ profile,
    (get_api_github_profile upstream (Some name) log).1
      = Reply 200 (JObj profile) ∧
    profile !! "name"
      = Some match data !! "name" with
             | Some v => if truthy v then v else dict_get data "login"
             | None => dict_get data "login"
             end.
Proof.
  intros Hup Hstatus Hbody. exists (profile_of data). split.
  - unfold get_api_github_profile. rewrite serve_fst.
    by rewrite (github_profile_returns _ _ _ r (JObj data));
      [|done|lia|by apply http_error_none|done].
  - rewrite name_of_profile. unfold py_or, dict_get at 1 2.
    by destruct (data !! "name").
Qed.

(** C9.  When the upstream [name] is present but falsy, as the empty
    string and null are, the [name] of the reply is the upstream
    [login]. *)
Theorem falsy_name_gives_login name log r data v :
  upstream (profile_url name) = GetReturns r →
  ¬ (400 ≤ status_code r < 600) →
  decoded r = inr (JObj data) →
  data !! "name" = Some v →
  v = JStr "" ∨ v = JNull ∨ truthy v = false →
  ∃ profile,
    (get_api_github_profile upstream (Some name) log).1
      = Reply 200 (JObj profile) ∧
    profile !! "name" = Some (dict_get data "login").
Proof.
  intros Hup Hstatus Hbody Hname Hv. exists (profile_of data). split.
  - unfold get_api_github_profile. rewrite serve_fst.
    by rewrite (github_profile_returns _ _ _ r (JObj data));
      [|done|lia|by apply http_error_none|done].
  - rewrite name_of_profile. unfold py_or, dict_get at 1 2.
    rewrite Hname. simpl. by destruct Hv as [-> | [-> | ->]].
Qed.

(** C5, as the code has it.  An upstream 404 gives 404 with the detail
    ["GitHub user not found"]; a transport failure, or any other upstream
    status in 400..599, gives 502 with the detail ["GitHub API error: "]
    followed by the upstream error text; any other status with a user
    object as body gives the mapped profile. *)
Theorem profile_outcomes name log :
  let reply := (get_api_github_profile upstream (Some name) log).1 in
  (∀ r, upstream (profile_url name) = GetReturns r →
     status_code r = 404 →
     reply = Reply 404 (JObj {[ "detail" := JStr "GitHub user not found" ]})) ∧
  (∀ text, upstream (profile_url name) = GetRaises text →
     reply = Reply 502
       (JObj {[ "detail" := JStr ("GitHub API error: " +:+ text) ]})) ∧
  (∀ r, upstream (profile_url name) = GetReturns r →
     status_code r ≠ 404 → 400 ≤ status_code r < 600 →
     ∃ msg, http_error_msg r = Some msg ∧
       reply = Reply 502
         (JObj {[ "detail" := JStr ("GitHub API error: " +:+ msg) ]})) ∧
  (∀ r data, upstream (profile_url name) = GetReturns r →
     ¬ (400 ≤ status_code r < 600) →
     decoded r = inr (JObj data) →
     reply = Reply 200 (JObj (profile_of data))).
Proof.
  intros reply. subst reply. unfold get_api_github_profile.
  rewrite serve_fst. repeat split.
  - intros r Hup H404. by rewrite (github_profile_404 _ _ _ r).
  - intros text Hup. by rewrite (github_profile_transport _ _ _ text).
  - intros r Hup H404 [msg Hmsg]%http_error_range. exists msg. split; [done|].
    by rewrite (github_profile_http_error _ _ _ r msg).
  - intros r data Hup Hstatus Hbody.
    by rewrite (github_profile_returns _ _ _ r (JObj data));
      [|done|lia|by apply http_error_none|done].
Qed.

End Profile.

(** ** The diagnostics endpoint *)

Section Report.

Implicit Types (w : world) (s : obj) (e : exn).

Ltac run :=
  unfold probe, import_db, hasattr_name, getattr_name, list_collection_names,
    setitem, modify, get_state, try_except, raise, lift,
    mbind, mret, prog_bind, prog_ret.

Lemma isinstance_Exception e : isinstance e Exception = true.
Proof. by destruct e as [[]|]. Qed.


(** The module is missing. *)
Lemma probe_import_error w s e :
  database_import w = ImportRaises e → isinstance e ImportError = true →
  probe w s = (inr (), <["database" :=
    JStr "❌ Database module not found (run enable-database first)"]> s).
Proof. intros Hw He. run. by rewrite Hw, He. Qed.

(** The import raises something else. *)
Lemma probe_import_fault w s e :
  database_import w = ImportRaises e → isinstance e ImportError = false →
  probe w s = (inr (), <["database" :=
    JStr ("❌ Error: " +:+ PyStr.take 50 (str e))]> s).
Proof. intros Hw He. run. by rewrite Hw, He, isinstance_Exception. Qed.

(** The handle is [None]. *)
Lemma probe_not_initialized w s :
  database_import w = ImportBinds None →
  probe w s = (inr (), <["database" :=
    JStr "⚠️  Available but not initialized"]> s).
Proof. intros Hw. run. by rewrite Hw. Qed.

(** The lookup of [name] raises. *)
Lemma probe_name_fault w s db e :
  database_import w = ImportBinds (Some db) →
  db_name db = inl e → isinstance e AttributeError = false →
  probe w s = (inr (), <["database" :=
    if isinstance e ImportError
    then JStr "❌ Database module not found (run enable-database first)"
    else JStr ("❌ Error: " +:+ PyStr.take 50 (str e))]>
    (<["database_url" := JStr "✅ Configured"]>
       (<["database" := JStr "✅ Available"]> s))).
Proof.
  intros Hw Hname He. run. rewrite Hw. simpl. rewrite Hname, He. simpl.
  destruct (isinstance e ImportError); [done|].
  by rewrite isinstance_Exception.
Qed.

(** The state when the enumeration starts: lines 106-109. *)
Lemma probe_enumeration w s db :
  database_import w = ImportBinds (Some db) →
  (∀ e, db_name db = inl e → isinstance e AttributeError = true) →
  let name := match db_name db with
              | inr v => v
              | inl _ => JStr "✅ Connected"
              end in
  let s' := <["connection_status" := JStr "Connected"]>
              (<["database_name" := name]>
                 (<["database_url" := JStr "✅ Configured"]>
                    (<["database" := JStr "✅ Available"]> s))) in
  probe w s
  = (inr (),
     match db_list_collection_names db with
     | inr collections =>
         <["database" := JStr "✅ Connected & Working"]>
           (<["collections" := JArr (slice_to 10 collections)]> s')
     | inl e =>
         <["database" := JStr ("⚠️  Connected but Error: "
                                 +:+ PyStr.take 50 (str e))]> s'
     end).
Proof.
  intros Hw Hname. run. rewrite Hw. simpl.
  destruct (db_name db) as [e|v] eqn:Hn.
  - rewrite (Hname e eq_refl). simpl.
    destruct (db_list_collection_names db) as [e'|l]; simpl; [|done].
    by rewrite isinstance_Exception.
  - simpl. destruct (db_list_collection_names db) as [e'|l]; simpl; [|done].
    by rewrite isinstance_Exception.
Qed.

(** Whatever it meets, the probe returns, and it leaves the keys of the
    report as they are. *)
Lemma probe_returns w s :
  ∃ s', probe w s = (inr (), s') ∧
        (dom s = list_to_set report_keys → dom s' = list_to_set report_keys).
Proof.
  assert (∀ (k : string) (v : json) (m : obj),
    k ∈ report_keys →
    dom m = list_to_set report_keys → dom (<[k:=v]> m) = list_to_set report_keys)
    as Hdom.
  { intros k v m Hk Hm. rewrite dom_insert_lookup_L; [done|].
    apply elem_of_dom. rewrite Hm. by apply elem_of_list_to_set. }
  assert (∀ k, k ∈ report_keys ↔ In k report_keys) as Hin
    by (intros; apply list_elem_of_In).
  destruct (database_import w) as [e|[db|]] eqn:Hw.
  - destruct (isinstance e ImportError) eqn:He.
    + rewrite (probe_import_error w s e) by done. eexists. split; [done|].
      intros Hs. apply Hdom; [|done]. apply Hin. simpl. tauto.
    + rewrite (probe_import_fault w s e) by done. eexists. split; [done|].
      intros Hs. apply Hdom; [|done]. apply Hin. simpl. tauto.
  - destruct (db_name db) as [e|v] eqn:Hname.
    + destruct (isinstance e AttributeError) eqn:He.
      * rewrite (probe_enumeration w s db); [|done|].
        2: { intros e' He'. congruence. }
        eexists. split; [done|]. intros Hs.
        destruct (db_list_collection_names db);
          repeat (apply Hdom; [apply Hin; simpl; tauto|]); done.
      * rewrite (probe_name_fault w s db e) by done.
        eexists. split; [done|]. intros Hs.
        repeat (apply Hdom; [apply Hin; simpl; tauto|]); done.
    + rewrite (probe_enumeration w s db); [|done|congruence].
      eexists. split; [done|]. intros Hs.
      destruct (db_list_collection_names db);
        repeat (apply Hdom; [apply Hin; simpl; tauto|]); done.
  - rewrite (probe_not_initialized w s) by done. eexists. split; [done|].
    intros Hs. apply Hdom; [|done]. apply Hin. simpl. tauto.
Qed.

Lemma flag_getenv w k :
  flag w k
  = JStr (if truthy (getenv w k) then "✅ Set" else "❌ Not Set").
Proof.
  unfold flag, getenv. destruct (environ w !! k) as [v|]; simpl; [|done].
  by destruct (String.eqb v "").
Qed.

(** Lines 126-131: the report is the state that the probe leaves, with
    the two flags written over it. *)
Lemma test_database_run w s s' :
  probe w initial_response = (inr (), s') →
  let report := <["database_name" := flag w "DATABASE_NAME"]>
                  (<["database_url" := flag w "DATABASE_URL"]> s') in
  test_database w s = (inr (JObj report), report).
Proof.
  intros Hprobe. rewrite !flag_getenv. unfold test_database.
  unfold setitem, modify, get_state, mbind, mret, prog_bind, prog_ret.
  by rewrite Hprobe.
Qed.

Lemma get_test_report w s' :
  probe w initial_response = (inr (), s') →
  get_test w = Reply 200 (JObj
    (<["database_name" := flag w "DATABASE_NAME"]>
       (<["database_url" := flag w "DATABASE_URL"]> s'))).
Proof.
  intros Hprobe. unfold get_test. rewrite serve_fst.
  by rewrite (test_database_run w ∅ s' Hprobe).
Qed.



(** C10.  In every report the fields [database_url] and [database_name]
    are the flags of the environment variables DATABASE_URL and
    DATABASE_NAME and nothing else: what the probe wrote there, such as
    ["✅ Configured"] or the name of the store, is written over before
    the report is returned. *)
Theorem report_environment_flags w :
  ∃ report,
    get_test w = Reply 200 (JObj report) ∧
    report !! "database_url" = Some (flag w "DATABASE_URL") ∧
    report !! "database_name" = Some (flag w "DATABASE_NAME") ∧
    (∀ k, flag w k = JStr "✅ Set" ∨ flag w k = JStr "❌ Not Set") ∧
    ∀ db name,
      database_import w = ImportBinds (Some db) → db_name db = inr name →
      let written := (probe w initial_response).2 in
      written !! "database_url" = Some (JStr "✅ Configured") ∧
      written !! "database_name" = Some name.
Proof.
  destruct (probe_returns w initial_response) as (s' & Hprobe & _).
  eexists. split; [by apply get_test_report|].
  split; [|split; [|split]].
  - rewrite lookup_insert_ne by done. by rewrite lookup_insert_eq.
  - by rewrite lookup_insert_eq.
  - intros k. unfold flag. destruct (environ w !! k) as [v|]; [|by right].
    destruct (String.eqb v ""); [by right|by left].
  - intros db name Hw Hname written. subst written.
    rewrite (probe_enumeration w _ db); [|done|congruence].
    rewrite Hname. simpl.
    by destruct (db_list_collection_names db); simpl;
      rewrite ?lookup_insert_ne by done; rewrite ?lookup_insert_eq.
Qed.

End Report.

(** ** Further properties of the GitHub endpoints *)

Section Exchanges.

Variable upstream : string → get_outcome.

Ltac run :=
  unfold github_repos, github_profile, try_except, requests_get,
    raise_for_status, json_, raise, lift, mbind, mret, prog_bind, prog_ret,
    result_bind, result_ret.

Lemma serve_snd {S} (h : prog S json) (s : S) : (serve h s).2 = (h s).2.
Proof. unfold serve. by destruct (h s). Qed.

Lemma github_profile_log name log :
  (github_profile upstream name log).2 = (log ++ [profile_call name])%list.
Proof.
  run. destruct (upstream (profile_url name)) as [text|r]; [done|].
  destruct (status_code r =? 404); [done|].
  destruct (http_error_msg r); [done|].
  destruct (decoded r) as [[c text]|v]; [by destruct c|].
  by destruct v.
Qed.

Lemma github_repos_log name limit f log :
  (github_repos upstream name limit f log).2 = (log ++ [repos_call name])%list.
Proof.
  run. destruct (upstream (repos_url name)) as [text|r]; [done|].
  destruct (http_error_msg r); [done|].
  destruct (decoded r) as [[c text]|v]; [by destruct c|].
  destruct (for_repo_in f v) as [e|filtered];
    [by destruct (isinstance e RequestException)|].
  destruct (list_sort filtered) as [e|sorted];
    [by destruct (isinstance e RequestException)|done].
Qed.

(** X1.  The profile endpoint issues exactly one outbound call when the
    query names a user, whatever upstream does: a GET of the user's URL
    with the GitHub media type and a timeout of 10 seconds, never a second
    one.  Without a username it issues none. *)
Theorem profile_calls username log :
  (get_api_github_profile upstream username log).2
  = match username with
    | Some name => (log ++ [profile_call name])%list
    | None => log
    end.
Proof.
  unfold get_api_github_profile. destruct username as [name|]; [|done].
  by rewrite serve_snd, github_profile_log.
Qed.

(** X2.  The repositories endpoint issues exactly one outbound call when
    the query is valid (a username, and a limit in 1..50 or none), whatever
    upstream does: a GET of the listing URL with the GitHub media type and a
    timeout of 15 seconds.  For any other query it issues none. *)
Theorem repos_calls username limit forks log :
  (get_api_github_repos upstream username limit forks log).2
  = match username with
    | Some name =>
        if valid_limit limit then (log ++ [repos_call name])%list else log
    | None => log
    end.
Proof.
  unfold get_api_github_repos, bounded, valid_limit.
  destruct username as [name|]; [|by destruct limit as [n|]; [destruct (_ && _)|]].
  destruct limit as [n|]; [destruct (_ && _)|]; try done.
  all: by rewrite serve_snd, github_repos_log.
Qed.

Lemma http_error_ok r : http_error_msg r = None → ¬ (400 ≤ status_code r < 600).
Proof. intros Hmsg [msg Hr]%http_error_range. congruence. Qed.

Lemma valid_limit_bounded limit :
  bounded "limit" 1 50 limit = [] ↔ valid_limit limit = true.
Proof.
  unfold bounded, valid_limit. destruct limit as [n|]; [|done].
  by destruct (_ && _).
Qed.

(** The reply of the profile endpoint in each case of the exchange *)
Lemma profile_reply name log :
  (get_api_github_profile upstream (Some name) log).1
  = match upstream (profile_url name) with
    | GetRaises text => upstream_error text
    | GetReturns r =>
        if status_code r =? 404
        then Reply 404 (JObj {[ "detail" := JStr "GitHub user not found" ]})
        else match request_exception (GetReturns r), decoded r with
             | Some text, _ => upstream_error text
             | None, inr (JObj data) => Reply 200 (JObj (profile_of data))
             | None, _ => internal_error
             end
    end.
Proof.
  unfold get_api_github_profile. rewrite serve_fst. run.
  destruct (upstream (profile_url name)) as [text|r]; [done|].
  destruct (status_code r =? 404); [done|]. simpl.
  destruct (http_error_msg r); [done|].
  destruct (decoded r) as [[c text]|v]; [by destruct c|].
  by destruct v.
Qed.

(** The reply of the repositories endpoint to a valid query, in each case
    of the exchange *)
Lemma repos_reply name limit forks log :
  valid_limit limit = true →
  (get_api_github_repos upstream (Some name) limit forks log).1
  = match request_exception (upstream (repos_url name)),
          upstream (repos_url name) with
    | Some text, _ => upstream_error text
    | None, GetReturns r =>
        match decoded r with
        | inr v =>
            match for_repo_in (default false forks) v ≫= list_sort with
            | inr sorted =>
                Reply 200 (JArr (JObj <$> slice_to (default 6 limit) sorted))
            | inl _ => internal_error
            end
        | inl _ => internal_error
        end
    | None, GetRaises _ => internal_error
    end.
Proof.
  intros Hvalid%valid_limit_bounded. unfold get_api_github_repos.
  rewrite Hvalid, serve_fst.
  destruct (upstream (repos_url name)) as [text|r] eqn:Hup.
  { by rewrite (github_repos_transport _ _ _ _ _ text). }
  unfold request_exception.
  destruct (http_error_msg r) as [msg|] eqn:Hmsg.
  { by rewrite (github_repos_http_error _ _ _ _ _ r msg). }
  destruct (decoded r) as [[c text]|v] eqn:Hbody.
  { rewrite (github_repos_undecoded _ _ _ _ _ r c text) by done.
    by destruct (derives c RequestException). }
  rewrite (github_repos_returns _ _ _ _ _ r v) by done.
  unfold mbind, result_bind, mret, result_ret.
  destruct (for_repo_in _ _) as [e|filtered] eqn:Hfor.
  { by rewrite (internal_500 e (for_repo_in_exn _ _ _ Hfor)). }
  destruct (list_sort _) as [e|sorted] eqn:Hsort; [|done].
  by rewrite (internal_500 e (list_sort_exn _ _ Hsort)).
Qed.

(** X3.  A profile that the endpoint returns has exactly the twelve keys
    of the handler, and every key but [name] holds what upstream sent
    under that key, null when upstream sent nothing: no other field of the
    upstream user gets through. *)
Theorem profile_fields name log profile :
  (get_api_github_profile upstream (Some name) log).1
    = Reply 200 (JObj profile) →
  ∃ r data,
    upstream (profile_url name) = GetReturns r ∧
    decoded r = inr (JObj data) ∧
    dom profile = list_to_set profile_keys ∧
    ∀ k, k ∈ profile_keys → k ≠ "name" → profile !! k = Some (dict_get data k).
Proof.
  rewrite profile_reply.
  destruct (upstream (profile_url name)) as [text|r] eqn:Hup; [discriminate|].
  destruct (status_code r =? 404); [discriminate|].
  destruct (request_exception _); [discriminate|].
  destruct (decoded r) as [?|[]] eqn:Hbody; try discriminate.
  intros [= <-]. eexists r, _. split; [done|]. split; [done|]. split.
  - unfold profile_of. by rewrite dom_list_to_map_L.
  - intros k Hk Hname. unfold profile_keys in Hk.
    repeat (apply elem_of_cons in Hk as [->|Hk]; [done|]).
    by apply elem_of_nil in Hk.
Qed.

Lemma upstream_error_eq t1 t2 : upstream_error t1 = upstream_error t2 ↔ t1 = t2.
Proof.
  split; [|by intros ->]. intros H.
  apply (f_equal (λ rep, match rep with
                         | Reply _ (JObj m) => m !! "detail"
                         | _ => None
                         end)) in H.
  unfold upstream_error in H. rewrite !lookup_singleton_eq in H.
  simpl in H. by injection H.
Qed.

Lemma upstream_error_other t (rep : reply) :
  reply_status rep ≠ 502 → rep = upstream_error t ↔ False.
Proof. split; [|done]. by intros ->. Qed.


(** X5.  When upstream answers the profile lookup with a well-formed body
    that is not a JSON object (a list, a string, null), the reply is 500:
    the failure is not turned into 502. *)
Theorem profile_body_not_object name log r v :
  upstream (profile_url name) = GetReturns r →
  http_error_msg r = None →
  decoded r = inr v →
  (∀ data, v ≠ JObj data) →
  (get_api_github_profile upstream (Some name) log).1 = internal_error.
Proof.
  intros Hup Hmsg Hbody Hv. rewrite profile_reply, Hup.
  pose proof (http_error_ok r Hmsg) as Hok.
  destruct (Z.eqb_spec (status_code r) 404); [lia|].
  unfold request_exception. rewrite Hmsg, Hbody.
  destruct v; try done. by destruct (Hv m).
Qed.

(** X6.  The repositories endpoint answers a valid query with 502 exactly
    when the exchange ended in a [RequestException] (transport, a status in
    400..599, or the decoding of the body), with the text of that exception
    in the detail; otherwise with 200 and a list, or with 500. *)
Theorem repos_replies name limit forks log :
  valid_limit limit = true →
  let reply := (get_api_github_repos upstream (Some name) limit forks log).1 in
  (∀ text, reply = upstream_error text
     ↔ request_exception (upstream (repos_url name)) = Some text) ∧
  ((∃ out, reply = Reply 200 (JArr out)) ∨ reply = internal_error ∨
   ∃ text, reply = upstream_error text).
Proof.
  intros Hvalid reply. subst reply. rewrite repos_reply by done.
  destruct (request_exception _) as [text|].
  { split; [|by right; right; exists text].
    intros text'. rewrite upstream_error_eq.
    split; [by intros ->|by intros [= ->]]. }
  assert (∀ rep : reply,
    (∃ out, rep = Reply 200 (JArr out)) ∨ rep = internal_error →
    (∀ text, rep = upstream_error text ↔ None = Some text) ∧
    ((∃ out, rep = Reply 200 (JArr out)) ∨ rep = internal_error ∨
     ∃ text, rep = upstream_error text)) as Hrest.
  { intros rep Hrep. split; [|tauto].
    intros text. rewrite upstream_error_other; [done|].
    by destruct Hrep as [[? ->]| ->]. }
  destruct (upstream (repos_url name)) as [?|r]; [by apply Hrest; right|].
  destruct (decoded r) as [?|v]; [by apply Hrest; right|].
  destruct (_ ≫= _); apply Hrest; [by right|left; by eexists].
Qed.

(** An item without [get] stops the comprehension. *)
Lemma comprehension_not_object f items item :
  item ∈ items → (∀ repo, item ≠ JObj repo) →
  ∃ e, comprehension f items = inl e.
Proof.
  intros Hin Hitem. induction Hin as [item items|item item' items Hin IH].
  - destruct item; try (by eexists). by destruct (Hitem m).
  - destruct (IH Hitem) as [e He]. cbn [comprehension].
    destruct item'; try (by eexists). unfold mbind, result_bind. simpl.
    rewrite He. destruct (selected f m); by eexists.
Qed.

(** X7.  When the list that upstream sends holds an item that is not a
    JSON object, the repositories endpoint answers a valid query with 500,
    wherever the item stands and whatever [include_forks] is: no partial
    list is returned. *)
Theorem repos_item_not_object name limit forks log r items item :
  valid_limit limit = true →
  upstream (repos_url name) = GetReturns r →
  http_error_msg r = None →
  decoded r = inr (JArr items) →
  item ∈ items → (∀ repo, item ≠ JObj repo) →
  (get_api_github_repos upstream (Some name) limit forks log).1
    = internal_error.
Proof.
  intros Hvalid Hup Hmsg Hbody Hin Hitem. rewrite repos_reply by done.
  unfold request_exception. rewrite Hup, Hmsg, Hbody. cbn [for_repo_in].
  destruct (comprehension_not_object (default false forks) items item Hin Hitem)
    as [e ->].
  done.
Qed.

(** X8.  When upstream answers the listing with a well-formed body that is
    not a list (an object with a key, as the error bodies of GitHub are, a
    non-empty string, null, a boolean, a number), the repositories
    endpoint answers a valid query with 500, not 502. *)
Theorem repos_body_not_list name limit forks log r v :
  valid_limit limit = true →
  upstream (repos_url name) = GetReturns r →
  http_error_msg r = None →
  decoded r = inr v →
  (∀ items, v ≠ JArr items) → v ≠ JObj ∅ → v ≠ JStr "" →
  (get_api_github_repos upstream (Some name) limit forks log).1
    = internal_error.
Proof.
  intros Hvalid Hup Hmsg Hbody Hlist Hobj Hstr. rewrite repos_reply by done.
  unfold request_exception. rewrite Hup, Hmsg, Hbody.
  destruct v as [| | |s|items|m]; try done.
  - simpl. destruct (String.eqb_spec s ""); [congruence|done].
  - by destruct (Hlist items).
  - simpl. destruct (bool_decide_reflect (dom m = ∅)) as [Hdom|]; [|done].
    apply dom_empty_inv_L in Hdom. congruence.
Qed.

End Exchanges.

(** ** Further properties of the order of the replies *)

Section Order.

Implicit Types (a b c : string) (k : Z * string).

Lemma string_leb_iff a b : String.leb a b = true ↔ a = b ∨ String.ltb a b = true.
Proof.
  unfold String.leb, String.ltb.
  destruct (String.compare a b) eqn:Hc; split; try done; try tauto.
  - intros _. left. by apply OrderedTypeEx.String_as_OT.cmp_eq.
  - intros [->|?]; [|done]. by rewrite string_compare_refl in Hc.
Qed.

Lemma string_ltb_trans a b c :
  String.ltb a b = true → String.ltb b c = true → String.ltb a c = true.
Proof.
  unfold String.ltb.
  destruct (String.compare a b) eqn:Hab; try done.
  destruct (String.compare b c) eqn:Hbc; try done. intros _ _.
  apply OrderedTypeEx.String_as_OT.cmp_lt in Hab, Hbc.
  pose proof (OrderedTypeEx.String_as_OT.lt_trans _ _ _ Hab Hbc) as Hac.
  apply OrderedTypeEx.String_as_OT.cmp_lt in Hac.
  unfold OrderedTypeEx.String_as_OT.cmp in Hac. by rewrite Hac.
Qed.

Lemma string_leb_trans a b c :
  String.leb a b = true → String.leb b c = true → String.leb a c = true.
Proof.
  rewrite !string_leb_iff. intros [->|Hab] [->|Hbc]; try tauto.
  right. by apply string_ltb_trans with b.
Qed.

(** [key_lt] in terms of the two components *)
Lemma key_lt_false_iff (na nb : Z) (sa sb : string) :
  key_lt (na, sa) (nb, sb) = false
  ↔ na > nb ∨ (na = nb ∧ PyStr.le sb sa = true).
Proof.
  split; [apply key_lt_false|].
  unfold key_lt, PyStr.le, PyStr.lt. simpl.
  destruct (Z.eqb_spec na nb) as [->|Hn]; simpl.
  - intros [?|[_ Hle]]; [lia|].
    destruct (String.eqb_spec sa sb) as [->|Hs]; simpl; [done|].
    apply string_leb_iff in Hle as [->|Hlt]; [done|].
    by apply string_ltb_asym.
  - intros [?|[? _]]; [|done]. apply Z.ltb_ge. lia.
Qed.

Lemma key_ge_trans k1 k2 k3 :
  key_lt k1 k2 = false → key_lt k2 k3 = false → key_lt k1 k3 = false.
Proof.
  destruct k1 as [n1 s1], k2 as [n2 s2], k3 as [n3 s3].
  rewrite !key_lt_false_iff.
  intros [?|[-> H12]] [?|[-> H23]]; try (left; lia).
  right. split; [done|]. by apply string_leb_trans with s2.
Qed.

Lemma key_ge_antisym k1 k2 :
  key_lt k1 k2 = false → key_lt k2 k1 = false → k1 = k2.
Proof.
  destruct k1 as [n1 s1], k2 as [n2 s2]. rewrite !key_lt_false_iff.
  intros [?|[-> H12]] [?|[? H21]]; try lia.
  f_equal. by apply String.leb_antisym.
Qed.

Global Instance ge_key_trans {A} : Transitive (@ge_key A).
Proof. intros x y z. apply key_ge_trans. Qed.

Global Instance in_order_trans : Transitive in_order.
Proof.
  intros x y z (nx & ny & Hx & Hy & Hxy) (ny' & nz & Hy' & Hz & Hyz).
  rewrite Hy in Hy'. injection Hy' as <-.
  exists nx, nz. split; [done|]. split; [done|].
  destruct Hxy as [?|[-> Hxy]], Hyz as [?|[-> Hyz]]; try (left; lia).
  right. split; [done|]. unfold PyStr.le in *.
  by apply string_leb_trans with (updated_at y).
Qed.

End Order.

(** ** Further properties of the repositories endpoint *)

Section Listing.

Variable upstream : string → get_outcome.

Implicit Types (repo : obj) (repos sorted : list obj) (out : list json).

(** A 200 reply, read backwards: the query was valid and upstream sent a
    list of objects, or something empty that is iterated as one. *)
Lemma repos_reply_list name limit forks log out :
  (get_api_github_repos upstream (Some name) limit forks log).1
    = Reply 200 (JArr out) →
  ∃ r v repos sorted,
    valid_limit limit = true ∧
    upstream (repos_url name) = GetReturns r ∧
    decoded r = inr v ∧
    (v = JArr (JObj <$> repos) ∨ (repos = [] ∧ ∀ items, v ≠ JArr items)) ∧
    list_sort (summary_of <$>
      filter (λ repo, selected (default false forks) repo) repos) = inr sorted ∧
    out = JObj <$> slice_to (default 6 limit) sorted.
Proof.
  intros Hreply.
  assert (valid_limit limit = true) as Hvalid.
  { destruct (valid_limit limit) eqn:Hv; [done|]. exfalso.
    unfold get_api_github_repos in Hreply.
    destruct (bounded "limit" 1 50 limit) eqn:Hb; [|discriminate].
    apply valid_limit_bounded in Hb. congruence. }
  rewrite repos_reply in Hreply by done.
  destruct (request_exception _); [discriminate|].
  destruct (upstream (repos_url name)) as [?|r] eqn:Hup; [discriminate|].
  destruct (decoded r) as [?|v] eqn:Hbody; [discriminate|].
  unfold mbind, result_bind in Hreply.
  destruct (for_repo_in _ v) as [?|filtered] eqn:Hfor; [discriminate|].
  destruct (list_sort filtered) as [?|sorted] eqn:Hsort; [discriminate|].
  injection Hreply as <-.
  destruct v as [| | |s|items|m]; try discriminate.
  - simpl in Hfor. destruct (String.eqb s ""); [|discriminate].
    injection Hfor as <-.
    exists r, (JStr s), [], sorted. repeat (split; [done|]).
    split; [|done]. right. by split.
  - destruct (for_repo_in_inv _ _ _ Hfor) as (repos & -> & Hitems).
    exists r, (JArr items), repos, sorted. repeat (split; [done|]).
    split; [|done]. left. by rewrite (Hitems items).
  - simpl in Hfor. destruct (bool_decide _); [|discriminate].
    injection Hfor as <-.
    exists r, (JObj m), [], sorted. repeat (split; [done|]).
    split; [|done]. right. by split.
Qed.

Lemma slice_to_limit {B} (limit : option Z) (l : list B) :
  valid_limit limit = true →
  slice_to (default 6 limit) l = take (Z.to_nat (default 6 limit)) l ∧
  1 ≤ default 6 limit ≤ 50.
Proof.
  unfold valid_limit. destruct limit as [n|]; simpl.
  - intros [?%Z.leb_le ?%Z.leb_le]%andb_true_iff.
    split; [|lia]. apply slice_to_nonneg. lia.
  - intros _. split; [done|lia].
Qed.

(** X9.  Every item of a list that the repositories endpoint returns is
    built from one object of the list that upstream sent, one that passes
    the fork filter: it has exactly the ten keys of the handler,
    [stargazers_count], [fork] and [topics] hold what upstream sent or 0,
    false and the empty list, the other keys what upstream sent or null. *)
Theorem repos_items name limit forks log out x :
  (get_api_github_repos upstream (Some name) limit forks log).1
    = Reply 200 (JArr out) →
  x ∈ out →
  ∃ r items repo m,
    upstream (repos_url name) = GetReturns r ∧
    decoded r = inr (JArr items) ∧
    JObj repo ∈ items ∧
    selected (default false forks) repo = true ∧
    x = JObj m ∧
    dom m = list_to_set summary_keys ∧
    m !! "stargazers_count"
      = Some (default (JInt 0) (repo !! "stargazers_count")) ∧
    m !! "fork" = Some (default (JBool false) (repo !! "fork")) ∧
    m !! "topics" = Some (default (JArr []) (repo !! "topics")) ∧
    ∀ k, k ∈ ["name"; "full_name"; "description"; "html_url"; "homepage";
              "language"; "updated_at"] →
         m !! k = Some (default JNull (repo !! k)).
Proof.
  intros (r & v & repos & sorted & Hvalid & Hup & Hbody & Hv & Hsort & ->)
    %repos_reply_list Hx.
  apply list_elem_of_fmap_1 in Hx as (s & -> & Hs).
  destruct (slice_to_take (default 6 limit) sorted) as [n Hn].
  rewrite Hn in Hs. apply subseteq_take in Hs.
  rewrite (list_sort_perm _ _ Hsort) in Hs.
  apply list_elem_of_fmap_1 in Hs as (repo & -> & [Hsel Hrepo]%list_elem_of_filter).
  destruct Hv as [-> | [-> _]]; [|by apply elem_of_nil in Hrepo].
  exists r, (JObj <$> repos), repo, (summary_of repo).
  split; [done|]. split; [done|]. split; [by apply list_elem_of_fmap_2|].
  split; [by destruct (selected _ repo)|]. split; [done|]. split.
  { unfold summary_of. by rewrite dom_list_to_map_L. }
  repeat (split; [done|]).
  intros k Hk. repeat (apply elem_of_cons in Hk as [->|Hk]; [done|]).
  by apply elem_of_nil in Hk.
Qed.

(** X10.  Asking for fewer items gives the head of what asking for more
    gives: for limits [n <= m] in 1..50 and the same upstream, the reply to
    limit [n] is the first [n] items of the reply to limit [m]. *)
Theorem repos_limit_prefix name (n m : Z) forks log log' out :
  1 ≤ n → n ≤ m → m ≤ 50 →
  (get_api_github_repos upstream (Some name) (Some m) forks log).1
    = Reply 200 (JArr out) →
  (get_api_github_repos upstream (Some name) (Some n) forks log').1
    = Reply 200 (JArr (take (Z.to_nat n) out)).
Proof.
  intros H1 Hnm H50 Hm.
  assert (valid_limit (Some n) = true ∧ valid_limit (Some m) = true) as [Hn Hm'].
  { unfold valid_limit. split; apply andb_true_iff; lia. }
  rewrite repos_reply in Hm |- * by done.
  destruct (request_exception _); [discriminate|].
  destruct (upstream (repos_url name)) as [?|r]; [discriminate|].
  destruct (decoded r) as [?|v]; [discriminate|].
  destruct (_ ≫= _) as [?|sorted]; [discriminate|].
  injection Hm as <-. simpl.
  rewrite !slice_to_nonneg by lia.
  rewrite <- fmap_take, take_take. by rewrite Nat.min_l by lia.
Qed.

(** X11.  A list that the repositories endpoint returns has at most
    [limit] items, six when the query gives no limit, and so never more
    than fifty, however many repositories upstream sends. *)
Theorem repos_at_most_limit name limit forks log out :
  (get_api_github_repos upstream (Some name) limit forks log).1
    = Reply 200 (JArr out) →
  Z.of_nat (length out) ≤ default 6 limit ∧ default 6 limit ≤ 50.
Proof.
  intros (r & v & repos & sorted & Hvalid & _ & _ & _ & _ & ->)%repos_reply_list.
  destruct (slice_to_limit limit sorted Hvalid) as [-> ?].
  rewrite length_fmap, length_take. lia.
Qed.

(** X12.  When no repository that upstream sends is a fork (a [fork] that
    is false, null or absent), [include_forks] makes no difference to the
    reply. *)
Theorem repos_without_forks name limit log r repos (forks forks' : option bool) :
  upstream (repos_url name) = GetReturns r →
  decoded r = inr (JArr (JObj <$> repos)) →
  Forall (λ repo, truthy (dict_get_default repo "fork" (JBool false)) = false)
    repos →
  (get_api_github_repos upstream (Some name) limit forks log).1
  = (get_api_github_repos upstream (Some name) limit forks' log).1.
Proof.
  intros Hup Hbody Hforks.
  destruct (valid_limit limit) eqn:Hvalid.
  - rewrite !repos_reply by done. rewrite Hup, Hbody. cbn [for_repo_in].
    rewrite !comprehension_objs.
    assert (∀ f, filter (λ repo, selected f repo) repos = repos) as Hall.
    { intros f. clear Hbody. induction Hforks as [|repo repos Hrepo _ IH]; [done|].
      rewrite filter_cons_True, IH; [done|].
      unfold selected. rewrite Hrepo. by destruct f. }
    by rewrite !Hall.
  - unfold get_api_github_repos.
    destruct (bounded "limit" 1 50 limit) eqn:Hb; [|done].
    apply valid_limit_bounded in Hb. congruence.
Qed.

Lemma filter_fmap_comm {B C} (g : B → C) (P : C → Prop)
    `{!∀ y, Decision (P y)} (bs : list B) :
  filter P (g <$> bs) = g <$> filter (λ b, P (g b)) bs.
Proof.
  induction bs as [|b bs IH]; [done|]. csimpl.
  rewrite !filter_cons, IH. by destruct (decide (P (g b))).
Qed.

Lemma filter_take_prefix {B} (P : B → Prop) `{!∀ y, Decision (P y)}
    (n : nat) (bs : list B) :
  filter P (take n bs) `prefix_of` filter P bs.
Proof.
  rewrite <- (take_drop n bs) at 2. rewrite filter_app.
  by apply prefix_app_r.
Qed.

Lemma insert_reverse_stable (k : Z * string) (x : obj) (l : list obj) :
  filter (λ y, typed_key (sort_key y) = Some k) (insert_reverse x l)
  = filter (λ y, typed_key (sort_key y) = Some k) (x :: l).
Proof.
  induction l as [|y l IH]; cbn [insert_reverse]; [done|].
  destruct (tuple_lt (sort_key x) (sort_key y)) as [[]|] eqn:Hlt; [|done..].
  rewrite (filter_cons _ y), IH, !filter_cons.
  destruct (decide (typed_key (sort_key y) = Some k)) as [Hy|Hy],
    (decide (typed_key (sort_key x) = Some k)) as [Hx|Hx]; try done.
  rewrite (tuple_lt_typed _ _ k k Hx Hy), key_lt_irrefl in Hlt. done.
Qed.

(** The sort keeps the order of the items of one key. *)
Lemma list_sort_stable (k : Z * string) (l l' : list obj) :
  list_sort l = inr l' →
  filter (λ x, typed_key (sort_key x) = Some k) l'
  = filter (λ x, typed_key (sort_key x) = Some k) l.
Proof.
  intros [_ ->]%list_sort_returns.
  induction l as [|x l IH]; [done|]. cbn [foldr].
  by rewrite insert_reverse_stable, !filter_cons, IH.
Qed.

(** X13.  The sort is stable: in a list that the endpoint returns, the
    items of one sort key (the same stars and the same [updated_at]) stand
    in the order in which upstream sent them, and they are the first of
    them when the limit cuts the list. *)
Theorem repos_stable name limit forks log r repos out (k : Z * string) :
  upstream (repos_url name) = GetReturns r →
  decoded r = inr (JArr (JObj <$> repos)) →
  (get_api_github_repos upstream (Some name) limit forks log).1
    = Reply 200 (JArr out) →
  filter (λ x, item_key x = Some k) out
  `prefix_of`
  filter (λ x, item_key x = Some k)
    ((JObj ∘ summary_of) <$>
       filter (λ repo, selected (default false forks) repo) repos).
Proof.
  intros Hup Hbody
    (r' & v & repos' & sorted & Hvalid & Hup' & Hbody' & Hv & Hsort & ->)
    %repos_reply_list.
  rewrite Hup in Hup'. injection Hup' as <-.
  rewrite Hbody in Hbody'. injection Hbody' as <-.
  destruct Hv as [Hv|[_ Hv]]; [|by destruct (Hv (JObj <$> repos))].
  injection Hv as <-%(inj (fmap JObj)).
  destruct (slice_to_take (default 6 limit) sorted) as [n ->].
  rewrite list_fmap_compose, !(filter_fmap_comm JObj). cbn [item_key].
  rewrite <- (list_sort_stable k _ _ Hsort).
  destruct (filter_take_prefix (λ x, typed_key (sort_key x) = Some k) n sorted)
    as [rest ->].
  exists (JObj <$> rest). by rewrite fmap_app.
Qed.

(** X14.  The list that the endpoint returns for repositories as GitHub
    types them is in order throughout, not only between neighbours: every
    item has, against every item after it, more stars, or as many and an
    [updated_at] that is not smaller. *)
Theorem reply_sorted_throughout name limit forks log r repos :
  valid_limit limit = true →
  upstream (repos_url name) = GetReturns r →
  http_error_msg r = None →
  decoded r = inr (JArr (JObj <$> repos)) →
  Forall (λ repo, typed_repo repo = true) repos →
  ∃ out,
    (get_api_github_repos upstream (Some name) limit forks log).1
      = Reply 200 (JArr out) ∧
    StronglySorted in_order out.
Proof.
  intros Hvalid Hup Hmsg Hbody Htyped.
  set (passing := filter (λ repo, selected (default false forks) repo) repos).
  assert (Forall (λ repo, typed_repo repo = true) passing) as Hpassing
    by by apply typed_passing.
  destruct (list_sort_typed _ Hpassing) as [sorted Hsort].
  exists (JObj <$> slice_to (default 6 limit) sorted). split.
  - rewrite repos_reply by done. unfold request_exception.
    rewrite Hup, Hmsg, Hbody. cbn [for_repo_in]. rewrite comprehension_objs.
    unfold mbind, result_bind. fold passing. by rewrite Hsort.
  - apply Sorted_StronglySorted; [apply _|].
    destruct (slice_to_take (default 6 limit) sorted) as [n ->].
    rewrite fmap_take. apply Sorted_take.
    by apply typed_summaries_sorted with passing.
Qed.

(** With a number for stars somewhere in a list that the sort accepts,
    the stars are numbers everywhere and the sort orders by them. *)
Lemma tuple_lt_number (a b : json * json) :
  is_Some (tuple_lt a b) → is_Some (number a.1) → is_Some (number b.1).
Proof.
  destruct a as [s u], b as [s' u']. unfold tuple_lt. simpl.
  destruct s; simpl; try (by intros _ [? [=]]).
  all: destruct s'; simpl; try (by intros [? [=]]); by eexists.
Qed.

Lemma tuple_lt_stars (a b : json * json) (c : bool) (na nb : Z) :
  tuple_lt a b = Some c →
  number a.1 = Some na → number b.1 = Some nb →
  if c then na ≤ nb else nb ≤ na.
Proof.
  destruct a as [s u], b as [s' u']. unfold tuple_lt. simpl.
  intros Hlt Ha Hb.
  assert (py_eq s s' = (na =? nb) ∧ py_lt s s' = Some (na <? nb)) as [He Hl].
  { destruct s; try discriminate; destruct s'; try discriminate.
    all: injection Ha as <-; injection Hb as <-; done. }
  rewrite He, Hl in Hlt.
  destruct (Z.eqb_spec na nb) as [->|Hne]; simpl in Hlt.
  - destruct c; lia.
  - injection Hlt as <-. destruct (Z.ltb_spec na nb); lia.
Qed.

Lemma comparable_cons (k : json * json) (ks : list (json * json)) :
  comparable (k :: ks) = true →
  Forall (λ k', is_Some (tuple_lt k k') ∧ is_Some (tuple_lt k' k)) ks
  ∧ comparable ks = true.
Proof.
  cbn [comparable]. intros [Hk Hks]%andb_true_iff. split; [|done].
  apply Forall_forall. intros k' Hin%list_elem_of_In.
  rewrite forallb_forall in Hk.
  apply Hk, andb_true_iff in Hin as [H1 H2].
  by apply bool_decide_eq_true in H1, H2.
Qed.

Lemma comparable_numbers (ks : list (json * json)) (k : json * json) :
  comparable ks = true → k ∈ ks → is_Some (number k.1) →
  Forall (λ k', is_Some (number k'.1)) ks.
Proof.
  induction ks as [|k0 ks IH]; [constructor|].
  intros [Hk0 Hks]%comparable_cons Hin Hk.
  apply elem_of_cons in Hin as [->|Hin].
  - constructor; [done|].
    eapply Forall_impl; [exact Hk0|]. intros k' [H1 _].
    by apply (tuple_lt_number k0 k').
  - constructor; [|by apply IH].
    destruct (proj1 (Forall_forall _ _) Hk0 k Hin) as [_ H2].
    by apply (tuple_lt_number k k0).
Qed.

Global Instance stars_ge_trans : Transitive stars_ge.
Proof.
  intros x y z (nx & ny & Hx & Hy & Hxy) (ny' & nz & Hy' & Hz & Hyz).
  rewrite Hy in Hy'. injection Hy' as <-.
  exists nx, nz. repeat (split; [done|]). lia.
Qed.

Lemma insert_reverse_stars (x : obj) (l : list obj) :
  is_Some (number (sort_key x).1) →
  Forall (λ y, is_Some (number (sort_key y).1)
               ∧ is_Some (tuple_lt (sort_key x) (sort_key y))) l →
  Sorted stars_ge l → Sorted stars_ge (insert_reverse x l).
Proof.
  intros [nx Hx] Hl Hs.
  induction Hs as [|y l Hs IH Hhd]; simpl; [by repeat constructor|].
  apply Forall_cons in Hl as [[[ny Hy] [c Hc]] Hl].
  pose proof (tuple_lt_stars _ _ c nx ny Hc Hx Hy) as Hxy.
  rewrite Hc. destruct c.
  - constructor; [by apply IH|].
    assert (stars_ge y x) as Hyx by by exists ny, nx.
    destruct Hhd as [|z l Hyz]; simpl; [by constructor|].
    destruct (tuple_lt (sort_key x) (sort_key z)) as [[]|]; by constructor.
  - constructor; [by constructor|]. constructor. by exists nx, ny.
Qed.

Lemma list_sort_stars (l l' : list obj) (x : obj) :
  list_sort l = inr l' → x ∈ l → is_Some (number (sort_key x).1) →
  StronglySorted stars_ge l'.
Proof.
  intros [Hc ->]%list_sort_returns Hin Hx.
  apply Sorted_StronglySorted; [apply _|].
  assert (Forall (λ y, is_Some (number (sort_key y).1)) l) as Hnum.
  { pose proof (comparable_numbers (sort_key <$> l) (sort_key x) Hc
                  (list_elem_of_fmap_2 _ _ _ Hin) Hx) as H.
    by rewrite Forall_fmap in H. }
  clear x Hin Hx. induction l as [|x l IH]; [constructor|].
  rewrite fmap_cons in Hc. apply comparable_cons in Hc as [Hx Hc].
  apply Forall_cons in Hnum as [Hnx Hnum].
  cbn [foldr]. apply insert_reverse_stars; [done| |by apply IH].
  rewrite sorted_reverse_perm. apply Forall_forall. intros y Hy.
  split; [by apply (proj1 (Forall_forall _ _) Hnum)|].
  rewrite Forall_fmap in Hx.
  by destruct (proj1 (Forall_forall _ _) Hx y Hy).
Qed.

(** X15.  The first item of a list that the endpoint returns has at least
    as many stars as every repository of upstream that passes the fork
    filter, those that the limit cuts off included. *)
Theorem repos_first_has_most_stars name limit forks log r repos x out repo
    (n m : Z) :
  upstream (repos_url name) = GetReturns r →
  decoded r = inr (JArr (JObj <$> repos)) →
  (get_api_github_repos upstream (Some name) limit forks log).1
    = Reply 200 (JArr (x :: out)) →
  repo ∈ repos → selected (default false forks) repo = true →
  field "stargazers_count" x = Some (JInt n) →
  dict_get_default repo "stargazers_count" (JInt 0) = JInt m →
  m ≤ n.
Proof.
  intros Hup Hbody
    (r' & v & repos' & sorted & Hvalid & Hup' & Hbody' & Hv & Hsort & Hout)
    %repos_reply_list Hrepo Hsel Hn Hm.
  rewrite Hup in Hup'. injection Hup' as <-.
  rewrite Hbody in Hbody'. injection Hbody' as <-.
  destruct Hv as [Hv|[_ Hv]]; [|by destruct (Hv (JObj <$> repos))].
  injection Hv as <-%(inj (fmap JObj)).
  assert (summary_of repo ∈ sorted) as Hin.
  { rewrite (list_sort_perm _ _ Hsort). apply list_elem_of_fmap_2.
    apply list_elem_of_filter. split; [by rewrite Hsel|done]. }
  destruct (slice_to_limit limit sorted Hvalid) as [Hslice ?].
  rewrite Hslice in Hout.
  destruct sorted as [|s0 sorted]; [by rewrite take_nil in Hout|].
  destruct (Z.to_nat (default 6 limit)) as [|lim] eqn:Hlim; [lia|].
  injection Hout as -> _. simpl in Hn.
  assert (number (sort_key s0).1 = Some n) as Hn'
    by (unfold sort_key, dict_get_default; by rewrite Hn).
  assert (number (sort_key (summary_of repo)).1 = Some m) as Hm'
    by (unfold sort_key, dict_get_default; by rewrite summary_stars, Hm).
  apply elem_of_cons in Hin as [<-|Hin].
  - rewrite Hm' in Hn'. injection Hn' as ->. lia.
  - assert (StronglySorted stars_ge (s0 :: sorted)) as Hsorted.
    { apply (list_sort_stars _ _ s0 Hsort); [|by eexists].
      rewrite <- (list_sort_perm _ _ Hsort). apply list_elem_of_here. }
    apply StronglySorted_inv in Hsorted as [_ Hall].
    rewrite Forall_forall in Hall.
    destruct (Hall (summary_of repo) Hin) as (na & nb & Ha & Hb & Hab).
    rewrite Hn' in Ha. injection Ha as <-.
    rewrite Hm' in Hb. injection Hb as <-. lia.
Qed.

End Listing.

(** ** The order in which upstream sends the repositories *)

Section Arrangement.

Implicit Types (l : list obj) (kl : list (Z * string * obj)).

Lemma decorate_cons x l :
  decorate (x :: l)
  = k ← typed_key (sort_key x); kl ← decorate l; Some ((k, x) :: kl).
Proof.
  cbn [decorate]. destruct (typed_key (sort_key x)); [|done].
  by destruct (decorate l).
Qed.

Lemma decorate_perm l1 l2 kl1 :
  l1 ≡ₚ l2 → decorate l1 = Some kl1 →
  ∃ kl2, decorate l2 = Some kl2 ∧ kl1 ≡ₚ kl2.
Proof.
  intros Hperm. revert kl1.
  induction Hperm as [|x l1 l2 _ IH|x y l|l1 l2 l3 _ IH1 _ IH2]; intros kl1.
  - intros [= <-]. by exists [].
  - rewrite !decorate_cons.
    destruct (typed_key (sort_key x)) as [k|], (decorate l1) as [kl|];
      simpl; try done. intros [= <-].
    destruct (IH kl eq_refl) as (kl2 & -> & Hkl). simpl.
    eexists. split; [done|]. by constructor.
  - rewrite !decorate_cons.
    destruct (typed_key (sort_key y)) as [ky|],
      (typed_key (sort_key x)) as [kx|], (decorate l) as [kl|];
      simpl; try done. intros [= <-].
    eexists. split; [done|]. apply Permutation_swap.
  - intros H1. destruct (IH1 kl1 H1) as (kl2 & H2 & Hkl2).
    destruct (IH2 kl2 H2) as (kl3 & H3 & Hkl3).
    exists kl3. split; [done|]. by rewrite Hkl2.
Qed.

Lemma typed_key_inj (k1 k2 : json * json) (k : Z * string) :
  typed_key k1 = Some k → typed_key k2 = Some k → k1 = k2.
Proof.
  destruct k1 as [[] []], k2 as [[] []]; simpl; try discriminate.
  by intros [= <-] [= <- <-].
Qed.

(** Two arrangements of the same items sort to the same list, when items
    of one key are one item. *)
Lemma list_sort_arrangement l1 l2 :
  l1 ≡ₚ l2 →
  (∀ x y, x ∈ l1 → y ∈ l1 → sort_key x = sort_key y → x = y) →
  is_Some (decorate l1) →
  list_sort l1 = list_sort l2.
Proof.
  intros Hperm Huniq [kl1 Hkl1].
  destruct (decorate_perm l1 l2 kl1 Hperm Hkl1) as (kl2 & Hkl2 & Hkl).
  rewrite (list_sort_decorated l1 kl1 Hkl1), (list_sort_decorated l2 kl2 Hkl2).
  do 2 f_equal.
  apply (Sorted_unique_strong ge_key); try apply sort_desc_sorted.
  - intros [k1 x1] [k2 x2] H1 H2 H12 H21.
    rewrite sort_desc_perm in H1. rewrite sort_desc_perm, <- Hkl in H2.
    pose proof (proj1 (Forall_forall _ _) (decorate_keys l1 kl1 Hkl1)) as Hkeys.
    pose proof (Hkeys _ H1) as Hk1. pose proof (Hkeys _ H2) as Hk2.
    simpl in Hk1, Hk2.
    pose proof (key_ge_antisym k1 k2 H12 H21) as <-.
    f_equal. apply Huniq.
    + rewrite <- (decorate_snd l1 kl1 Hkl1).
      by apply (list_elem_of_fmap_2 snd _ (k1, x1)).
    + rewrite <- (decorate_snd l1 kl1 Hkl1).
      by apply (list_elem_of_fmap_2 snd _ (k1, x2)).
    + by apply typed_key_inj with k1.
  - by rewrite !sort_desc_perm.
Qed.

(** X16.  The order in which upstream sends the repositories does not show
    in the reply, as long as the repositories that have a sort key in
    common (the same stars and the same [updated_at]) have the same
    summary: two listings with the same typed repositories in different
    orders get the same reply. *)
Theorem repos_order_irrelevant (up1 up2 : string → get_outcome)
    name limit forks log1 log2 r1 r2 (repos1 repos2 : list obj) :
  up1 (repos_url name) = GetReturns r1 →
  up2 (repos_url name) = GetReturns r2 →
  http_error_msg r1 = None → http_error_msg r2 = None →
  decoded r1 = inr (JArr (JObj <$> repos1)) →
  decoded r2 = inr (JArr (JObj <$> repos2)) →
  repos1 ≡ₚ repos2 →
  Forall (λ repo, typed_repo repo = true) repos1 →
  (∀ a b, a ∈ repos1 → b ∈ repos1 →
     sort_key (summary_of a) = sort_key (summary_of b) →
     summary_of a = summary_of b) →
  (get_api_github_repos up1 (Some name) limit forks log1).1
  = (get_api_github_repos up2 (Some name) limit forks log2).1.
Proof.
  intros Hup1 Hup2 Hmsg1 Hmsg2 Hbody1 Hbody2 Hperm Htyped Huniq.
  destruct (valid_limit limit) eqn:Hvalid.
  - rewrite !repos_reply by done. unfold request_exception.
    rewrite Hup1, Hup2, Hmsg1, Hmsg2, Hbody1, Hbody2. cbn [for_repo_in].
    rewrite !comprehension_objs. unfold mbind, result_bind.
    set (f := default false forks).
    rewrite (list_sort_arrangement
               (summary_of <$> filter (λ repo, selected f repo) repos1)
               (summary_of <$> filter (λ repo, selected f repo) repos2)).
    + done.
    + by rewrite Hperm.
    + intros x y (a & -> & [_ Ha]%list_elem_of_filter)%list_elem_of_fmap_1
        (b & -> & [_ Hb]%list_elem_of_filter)%list_elem_of_fmap_1.
      by apply Huniq.
    + apply decorate_typed, Forall_forall.
      intros repo [_ Hin]%list_elem_of_filter.
      by apply (proj1 (Forall_forall _ _) Htyped).
  - unfold get_api_github_repos.
    destruct (bounded "limit" 1 50 limit) eqn:Hb; [|done].
    apply valid_limit_bounded in Hb. congruence.
Qed.

End Arrangement.

(** ** Further properties of the diagnostics endpoint *)

Section Findings.

Implicit Types (w : world) (report : obj).

Ltac field_of_report :=
  repeat (rewrite lookup_insert_ne by done);
  first [by rewrite lookup_insert_eq | reflexivity].

(** The report in each of the five ways the probe can go *)
Lemma report_table w :
  ∃ report,
    get_test w = Reply 200 (JObj report) ∧
    ((∃ e, database_import w = ImportRaises e ∧
        report !! "connection_status" = Some (JStr "Not Connected") ∧
        report !! "collections" = Some (JArr []) ∧
        report !! "database" = Some
          (if isinstance e ImportError
           then JStr "❌ Database module not found (run enable-database first)"
           else JStr ("❌ Error: " +:+ PyStr.take 50 (str e))))
     ∨ (database_import w = ImportBinds None ∧
        report !! "connection_status" = Some (JStr "Not Connected") ∧
        report !! "collections" = Some (JArr []) ∧
        report !! "database" = Some (JStr "⚠️  Available but not initialized"))
     ∨ (∃ db e, database_import w = ImportBinds (Some db) ∧
        db_name db = inl e ∧ isinstance e AttributeError = false ∧
        report !! "connection_status" = Some (JStr "Not Connected") ∧
        report !! "collections" = Some (JArr []) ∧
        report !! "database" = Some
          (if isinstance e ImportError
           then JStr "❌ Database module not found (run enable-database first)"
           else JStr ("❌ Error: " +:+ PyStr.take 50 (str e))))
     ∨ (∃ db e, database_import w = ImportBinds (Some db) ∧
        name_found db ∧ db_list_collection_names db = inl e ∧
        report !! "connection_status" = Some (JStr "Connected") ∧
        report !! "collections" = Some (JArr []) ∧
        report !! "database" = Some
          (JStr ("⚠️  Connected but Error: " +:+ PyStr.take 50 (str e))))
     ∨ (∃ db names, database_import w = ImportBinds (Some db) ∧
        name_found db ∧ db_list_collection_names db = inr names ∧
        report !! "connection_status" = Some (JStr "Connected") ∧
        report !! "collections" = Some (JArr (take 10 names)) ∧
        report !! "database" = Some (JStr "✅ Connected & Working"))).
Proof.
  destruct (database_import w) as [e|[db|]] eqn:Hw.
  - eexists. split.
    { apply get_test_report.
      instantiate (1 := <["database" :=
        if isinstance e ImportError
        then JStr "❌ Database module not found (run enable-database first)"
        else JStr ("❌ Error: " +:+ PyStr.take 50 (str e))]> initial_response).
      destruct (isinstance e ImportError) eqn:He.
      - by apply (probe_import_error w _ e).
      - by apply (probe_import_fault w _ e). }
    left. exists e. repeat split; field_of_report.
  - destruct (db_name db) as [e|v] eqn:Hname.
    + destruct (isinstance e AttributeError) eqn:He.
      * assert (name_found db) as Hfound by (intros e' He'; congruence).
        eexists. split.
        { apply get_test_report. by apply (probe_enumeration w _ db). }
        rewrite Hname.
        destruct (db_list_collection_names db) as [e'|names] eqn:Hlist.
        -- do 3 right. left. exists db, e'. repeat split; try done;
             field_of_report.
        -- do 4 right. exists db, names. repeat split; try done;
             field_of_report.
      * eexists. split.
        { apply get_test_report. by apply (probe_name_fault w _ db e). }
        do 2 right. left. exists db, e. repeat split; try done;
          field_of_report.
    + assert (name_found db) as Hfound by (intros e' He'; congruence).
      eexists. split.
      { apply get_test_report. by apply (probe_enumeration w _ db). }
      rewrite Hname.
      destruct (db_list_collection_names db) as [e'|names] eqn:Hlist.
      * do 3 right. left. exists db, e'. repeat split; try done;
          field_of_report.
      * do 4 right. exists db, names. repeat split; try done;
          field_of_report.
  - eexists. split.
    { apply get_test_report. by apply probe_not_initialized. }
    right. left. repeat split; field_of_report.
Qed.

Lemma not_reached w :
  (∃ e, database_import w = ImportRaises e) ∨
  database_import w = ImportBinds None ∨
  (∃ db e, database_import w = ImportBinds (Some db) ∧
     db_name db = inl e ∧ isinstance e AttributeError = false) →
  ¬ reached w.
Proof.
  intros [[e He]|[Hnone|(db & e & Hdb & Hname & He)]] (db' & Hdb' & Hfound);
    try congruence.
  assert (db' = db) as -> by congruence.
  specialize (Hfound e Hname). congruence.
Qed.

(** X17.  The report says ["Connected"] exactly when the import gave a
    handle and the lookup of its name raised nothing but, at most, an
    [AttributeError]: a failing enumeration leaves it ["Connected"], a
    missing module, a handle that is [None] or a fault before the
    enumeration leave it ["Not Connected"]. *)
Theorem connection_status_reached w :
  ∃ report,
    get_test w = Reply 200 (JObj report) ∧
    ((reached w ∧
      report !! "connection_status" = Some (JStr "Connected")) ∨
     (¬ reached w ∧
      report !! "connection_status" = Some (JStr "Not Connected"))).
Proof.
  destruct (report_table w) as (report & Hreport & Hcases).
  exists report. split; [done|].
  destruct Hcases as
    [(e & Hw & Hs & _)|[(Hw & Hs & _)|[(db & e & Hw & Hname & He & Hs & _)|
     [(db & e & Hw & Hfound & _ & Hs & _)|(db & names & Hw & Hfound & _ & Hs & _)]]]].
  - right. split; [|done]. apply not_reached. left. by exists e.
  - right. split; [|done]. apply not_reached. by right; left.
  - right. split; [|done]. apply not_reached. right; right. by exists db, e.
  - left. split; [by exists db|done].
  - left. split; [by exists db|done].
Qed.

(** X18.  The [collections] of the report are the first ten names that
    the enumeration returns, all of them when there are fewer, and the
    empty list whenever the enumeration is not reached or fails: never
    more than ten. *)
Theorem collections_first_ten w :
  ∃ report l,
    get_test w = Reply 200 (JObj report) ∧
    report !! "collections" = Some (JArr l) ∧
    (length l ≤ 10)%nat ∧
    ((∃ names, enumerated w names ∧ l = take 10 names ∧
               ((length names ≤ 10)%nat → l = names)) ∨
     ((∀ names, ¬ enumerated w names) ∧ l = [])).
Proof.
  destruct (report_table w) as (report & Hreport & Hcases).
  exists report.
  destruct Hcases as
    [(e & Hw & _ & Hc & _)|[(Hw & _ & Hc & _)|[(db & e & Hw & Hname & He & _ & Hc & _)|
     [(db & e & Hw & Hfound & Hlist & _ & Hc & _)|
      (db & names & Hw & Hfound & Hlist & _ & Hc & _)]]]].
  1-4: exists []; split; [done|]; split; [done|]; split; [simpl; lia|];
       right; split; [|done]; intros names (db' & Hw' & Hfound' & Hlist').
  - congruence.
  - congruence.
  - assert (db' = db) as -> by congruence.
    specialize (Hfound' e Hname). congruence.
  - assert (db' = db) as -> by congruence. congruence.
  - exists (take 10 names). split; [done|]. split; [done|].
    split; [rewrite length_take; lia|]. left. exists names.
    split; [by exists db|]. split; [done|]. apply take_ge.
Qed.

(** X19.  The report says ["✅ Connected & Working"] exactly when the
    enumeration of the collections returned. *)
Theorem working_iff_enumerated w :
  ∃ report,
    get_test w = Reply 200 (JObj report) ∧
    (report !! "database" = Some (JStr "✅ Connected & Working")
       ↔ ∃ names, enumerated w names).
Proof.
  destruct (report_table w) as (report & Hreport & Hcases).
  exists report. split; [done|].
  destruct Hcases as
    [(e & Hw & _ & _ & Hd)|[(Hw & _ & _ & Hd)|[(db & e & Hw & Hname & He & _ & _ & Hd)|
     [(db & e & Hw & Hfound & Hlist & _ & _ & Hd)|
      (db & names & Hw & Hfound & Hlist & _ & _ & Hd)]]]].
  - rewrite Hd. split.
    + by destruct (isinstance e ImportError).
    + intros (names & db & Hw' & _). congruence.
  - rewrite Hd. split; [done|]. intros (names & db & Hw' & _). congruence.
  - rewrite Hd. split.
    + by destruct (isinstance e ImportError).
    + intros (names & db' & Hw' & Hfound' & _).
      assert (db' = db) as -> by congruence.
      specialize (Hfound' e Hname). congruence.
  - rewrite Hd. split; [done|]. intros (names & db' & Hw' & _ & Hlist').
    assert (db' = db) as -> by congruence. congruence.
  - rewrite Hd. split; [|done]. intros _. exists names. by exists db.
Qed.





End Findings.

(** ** The properties at work on concrete requests *)

Module Scenarios.

(** The three repositories of the specification, forks left out: the
    fork goes, the other two come by stars. *)
Lemma repos_sorted_witness :
  Forall (λ repo, typed_repo repo = true) three_repos ∧
  (get_api_github_repos listing (Some "octocat") None None []).1
    = Reply 200 (JArr (JObj <$>
        [summary_of (raw_repo 5 false "2023-01-01");
         summary_of (raw_repo 2 false "2024-01-01")])) ∧
  Sorted in_order (JObj <$>
    [summary_of (raw_repo 5 false "2023-01-01");
     summary_of (raw_repo 2 false "2024-01-01")]).
Proof.
  assert (Forall (λ repo, typed_repo repo = true) three_repos) as Htyped
    by (repeat constructor).
  assert ((get_api_github_repos listing (Some "octocat") None None []).1
          = Reply 200 (JArr (JObj <$>
              [summary_of (raw_repo 5 false "2023-01-01");
               summary_of (raw_repo 2 false "2024-01-01")]))) as H
    by (vm_compute; reflexivity).
  destruct (repos_sorted listing "octocat" None None [] _ three_repos
              eq_refl eq_refl eq_refl eq_refl Htyped)
    as (out & Hreply & Hsorted).
  rewrite H in Hreply. injection Hreply as <-.
  split; [exact Htyped|]. split; [exact H|exact Hsorted].
Defined.

(** Stars that are all null are equal, and the items come by
    [updated_at]; stars that are an integer here and a string there
    cannot be compared, and the reply is an internal error. *)
Example repos_null_stars :
  (get_api_github_repos
     (lists [<["stargazers_count" := JNull]> (raw_repo 0 false "2023-01-01");
             <["stargazers_count" := JNull]> (raw_repo 0 false "2024-01-01")])
     (Some "octocat") None None []).1
  = Reply 200 (JArr (JObj <$>
      [summary_of (<["stargazers_count" := JNull]> (raw_repo 0 false "2024-01-01"));
       summary_of (<["stargazers_count" := JNull]> (raw_repo 0 false "2023-01-01"))])).
Proof. vm_compute. reflexivity. Qed.

Example repos_boolean_stars :
  (get_api_github_repos
     (lists [<["stargazers_count" := JBool true]> (raw_repo 0 false "2023-01-01");
             raw_repo 3 false "2022-01-01"])
     (Some "octocat") None None []).1
  = Reply 200 (JArr (JObj <$>
      [summary_of (raw_repo 3 false "2022-01-01");
       summary_of (<["stargazers_count" := JBool true]>
                     (raw_repo 0 false "2023-01-01"))])).
Proof. vm_compute. reflexivity. Qed.

Example repos_updated_not_compared :
  (get_api_github_repos
     (lists [<["updated_at" := JInt 7]> (raw_repo 1 false "");
             raw_repo 3 false "2022-01-01"])
     (Some "octocat") None None []).1
  = Reply 200 (JArr (JObj <$>
      [summary_of (raw_repo 3 false "2022-01-01");
       summary_of (<["updated_at" := JInt 7]> (raw_repo 1 false ""))])).
Proof. vm_compute. reflexivity. Qed.

Example repos_mixed_stars :
  (get_api_github_repos
     (lists [<["stargazers_count" := JStr "5"]> (raw_repo 0 false "2023-01-01");
             raw_repo 3 false "2022-01-01"])
     (Some "octocat") None None []).1
  = Reply 500 (JStr "Internal Server Error").
Proof. vm_compute. reflexivity. Qed.

(** With the forks asked for, the fork comes first among the two
    repositories of five stars: it was updated later. *)
Example repos_with_forks :
  (get_api_github_repos listing (Some "octocat") None (Some true) []).1
  = Reply 200 (JArr (JObj <$>
      [summary_of (raw_repo 5 true "2023-06-01");
       summary_of (raw_repo 5 false "2023-01-01");
       summary_of (raw_repo 2 false "2024-01-01")])).
Proof. vm_compute. reflexivity. Qed.

Lemma repos_fork_filter_witness :
  let out := JObj <$> [summary_of (raw_repo 5 false "2023-01-01");
                       summary_of (raw_repo 2 false "2024-01-01")] in
  Forall (λ repo, typed_fork repo = true) three_repos ∧
  (get_api_github_repos listing (Some "octocat") None None []).1
    = Reply 200 (JArr out) ∧
  Forall (λ x, field "fork" x = Some (JBool false)) out.
Proof.
  assert (Forall (λ repo, typed_fork repo = true) three_repos) as Htyped
    by (repeat constructor).
  assert ((get_api_github_repos listing (Some "octocat") None None []).1
          = Reply 200 (JArr (JObj <$>
              [summary_of (raw_repo 5 false "2023-01-01");
               summary_of (raw_repo 2 false "2024-01-01")]))) as H
    by (vm_compute; reflexivity).
  split; [exact Htyped|]. split; [exact H|].
  exact (proj1 (repos_fork_filter listing "octocat" None None [] _ three_repos
                  _ eq_refl eq_refl Htyped H) (or_introl eq_refl)).
Defined.

(** A limit of one keeps the repository of most stars, which is not the
    first that upstream sent: the cut comes after the sort. *)
Lemma repos_length_witness :
  let starred := answer 200 "OK" (JArr (JObj <$>
    [raw_repo 2 false "2024-01-01"; raw_repo 5 false "2023-01-01"])) in
  ∃ out,
    (get_api_github_repos starred (Some "octocat") (Some 1) None []).1
      = Reply 200 (JArr out) ∧
    out = [JObj (summary_of (raw_repo 5 false "2023-01-01"))] ∧
    Z.of_nat (length out) = 1.
Proof.
  intros starred.
  destruct (repos_length starred "octocat" 1 None [] _
              [raw_repo 2 false "2024-01-01"; raw_repo 5 false "2023-01-01"]
              ltac:(lia) eq_refl eq_refl eq_refl
              ltac:(repeat constructor))
    as (full & out & Hreply & _ & _ & _ & Hlen).
  exists out. split; [exact Hreply|]. split; [|exact Hlen].
  assert ((get_api_github_repos starred (Some "octocat") (Some 1) None []).1
          = Reply 200 (JArr [JObj (summary_of (raw_repo 5 false "2023-01-01"))]))
    as H by (vm_compute; reflexivity).
  rewrite H in Hreply. by injection Hreply as <-.
Defined.

Lemma repos_upstream_failure_witness :
  (get_api_github_repos (answer 404 "Not Found" JNull)
     (Some "ghost") None None []).1
  = Reply 502 (JObj {[ "detail" := JStr
      ("GitHub API error: 404 Client Error: Not Found for url: "
       +:+ repos_url "ghost") ]}).
Proof.
  destruct (proj2 (repos_upstream_failure (answer 404 "Not Found" JNull)
                     (Some "ghost") None None [])
              "ghost" eq_refl eq_refl) as [_ Hstatus].
  destruct (Hstatus _ eq_refl ltac:(simpl; lia)) as (msg & Hmsg & ->).
  vm_compute in Hmsg. injection Hmsg as <-. reflexivity.
Defined.

(** A status that is not 2xx and yet is no failure for [raise_for_status]:
    the body is processed and the reply is 200, not 502. *)
Lemma repos_status_300_not_502 :
  let r := {| status_code := 300; reason := "Multiple Choices";
              url := repos_url "octocat"; decoded := inr (JArr []) |} in
  ¬ (200 ≤ status_code r < 300) ∧
  (get_api_github_repos (λ _, GetReturns r) (Some "octocat") None None []).1
    = Reply 200 (JArr []) ∧
  reply_status
    (get_api_github_repos (λ _, GetReturns r) (Some "octocat") None None []).1
    ≠ 502.
Proof. split; [simpl; lia|]. split; [reflexivity|]. vm_compute. discriminate. Qed.

Lemma repos_limit_validated_witness :
  get_api_github_repos listing (Some "octocat") (Some 51) None []
    = (Unprocessable ["limit"], []) ∧
  get_api_github_repos listing (Some "octocat") (Some 0) None []
    = (Unprocessable ["limit"], []).
Proof.
  split.
  - exact (proj1 (proj1 (repos_limit_validated listing (Some "octocat") None [])
                    51 ltac:(lia))).
  - exact (proj1 (proj1 (repos_limit_validated listing (Some "octocat") None [])
                    0 ltac:(lia))).
Defined.

Lemma profile_name_or_login_witness :
  ∃ profile,
    (get_api_github_profile (answer 200 "OK" (JObj octocat_user))
       (Some "octocat") []).1 = Reply 200 (JObj profile) ∧
    octocat_user !! "name" = None ∧
    profile !! "name" = Some (JStr "octocat").
Proof.
  destruct (profile_name_or_login (answer 200 "OK" (JObj octocat_user)) "octocat" []
              _ octocat_user eq_refl ltac:(simpl; lia) eq_refl)
    as (profile & Hreply & Hname).
  exists profile. split; [exact Hreply|]. split; [reflexivity|exact Hname].
Defined.

(** The [name] field is present, it is the empty string, and the reply
    shows the login in its place. *)
Lemma blank_name_replaced :
  ∃ profile,
    (get_api_github_profile (answer 200 "OK" (JObj blank_name_user))
       (Some "octocat") []).1 = Reply 200 (JObj profile) ∧
    blank_name_user !! "name" = Some (JStr "") ∧
    profile !! "name" = Some (JStr "octocat") ∧
    profile !! "name" ≠ blank_name_user !! "name".
Proof.
  exists (profile_of blank_name_user).
  split; [reflexivity|]. split; [reflexivity|]. split; [reflexivity|].
  vm_compute. discriminate.
Qed.

Lemma falsy_name_gives_login_witness :
  ∃ profile,
    (get_api_github_profile (answer 200 "OK" (JObj blank_name_user))
       (Some "octocat") []).1 = Reply 200 (JObj profile) ∧
    profile !! "name" = Some (JStr "octocat").
Proof.
  exact (falsy_name_gives_login (answer 200 "OK" (JObj blank_name_user))
           "octocat" [] _ blank_name_user (JStr "")
           eq_refl ltac:(simpl; lia) eq_refl eq_refl (or_introl eq_refl)).
Defined.

(** The same with [name] null, which is how GitHub sends a user who set
    no name. *)
Example null_name_gives_login :
  ∃ profile,
    (get_api_github_profile
       (answer 200 "OK" (JObj (<["name" := JNull]> octocat_user)))
       (Some "octocat") []).1 = Reply 200 (JObj profile) ∧
    profile !! "name" = Some (JStr "octocat").
Proof. exists (profile_of (<["name" := JNull]> octocat_user)). by split. Qed.

Lemma profile_outcomes_witness :
  (get_api_github_profile (answer 404 "Not Found" JNull) (Some "ghost") []).1
  = Reply 404 (JObj {[ "detail" := JStr "GitHub user not found" ]}).
Proof.
  exact (proj1 (profile_outcomes (answer 404 "Not Found" JNull) "ghost" [])
           _ eq_refl eq_refl).
Defined.

(** A status that is neither 404 nor 2xx, with a user as body: the reply
    is the profile, not 502. *)
Lemma profile_status_300_not_502 :
  let r := {| status_code := 300; reason := "Multiple Choices";
              url := profile_url "octocat"; decoded := inr (JObj octocat_user) |} in
  status_code r ≠ 404 ∧ ¬ (200 ≤ status_code r < 300) ∧
  (get_api_github_profile (λ _, GetReturns r) (Some "octocat") []).1
    = Reply 200 (JObj (profile_of octocat_user)) ∧
  reply_status
    (get_api_github_profile (λ _, GetReturns r) (Some "octocat") []).1 ≠ 502.
Proof.
  split; [simpl; lia|]. split; [simpl; lia|]. split; [reflexivity|].
  vm_compute. discriminate.
Qed.

(** Characters, not bytes, are counted and cut. *)
Example len_counts_characters : PyStr.len "héllo" = 5%nat.
Proof. reflexivity. Qed.

Example take_cuts_characters : PyStr.take 2 "héllo" = "hé".
Proof. reflexivity. Qed.

(** The enumeration fails: the store counts as reached, the text is cut
    after 50 characters, and the two flags come from the environment. *)
Example enumeration_fault_reported :
  ∃ report,
    get_test failing_store = Reply 200 (JObj report) ∧
    report !! "database"
      = Some (JStr ("⚠️  Connected but Error: " +:+ PyStr.take 50 sixty)) ∧
    PyStr.len sixty = 60%nat ∧ PyStr.len (PyStr.take 50 sixty) = 50%nat ∧
    report !! "connection_status" = Some (JStr "Connected") ∧
    report !! "database_url" = Some (JStr "✅ Set") ∧
    report !! "database_name" = Some (JStr "❌ Not Set").
Proof. eexists. split; [reflexivity|]. by vm_compute. Qed.

(** The import fails with a text of 52 characters, two of them of two
    bytes each: 50 characters are kept, which are 52 bytes. *)
Example import_fault_reported :
  ∃ report,
    get_test failing_import = Reply 200 (JObj report) ∧
    report !! "database"
      = Some (JStr ("❌ Error: éé" +:+ PyStr.take 48 sixty)) ∧
    report !! "connection_status" = Some (JStr "Not Connected").
Proof. eexists. split; [reflexivity|]. by vm_compute. Qed.

End Scenarios.

(** ** The further properties at work on concrete requests *)

Module Further.

Lemma profile_fields_witness :
  (get_api_github_profile (answer 200 "OK" (JObj octocat_user))
     (Some "octocat") []).1 = Reply 200 (JObj (profile_of octocat_user)) ∧
  dom (profile_of octocat_user) = list_to_set profile_keys ∧
  profile_of octocat_user !! "login" = Some (JStr "octocat") ∧
  profile_of octocat_user !! "bio" = Some JNull.
Proof.
  destruct (profile_fields (answer 200 "OK" (JObj octocat_user)) "octocat" []
              (profile_of octocat_user) eq_refl)
    as (r & data & Hup & Hbody & Hdom & Hfields).
  split; [reflexivity|]. split; [exact Hdom|]. split; reflexivity.
Defined.

Lemma profile_body_not_object_witness :
  (get_api_github_profile (answer 200 "OK" (JArr [])) (Some "octocat") []).1
  = internal_error.
Proof.
  exact (profile_body_not_object (answer 200 "OK" (JArr [])) "octocat" []
           _ (JArr []) eq_refl eq_refl eq_refl
           ltac:(intros data; discriminate)).
Defined.

Lemma repos_replies_witness :
  request_exception (answer 503 "Service Unavailable" JNull (repos_url "octocat"))
    = Some ("503 Server Error: Service Unavailable for url: "
            +:+ repos_url "octocat") ∧
  (get_api_github_repos (answer 503 "Service Unavailable" JNull)
     (Some "octocat") None None []).1
  = upstream_error ("503 Server Error: Service Unavailable for url: "
                    +:+ repos_url "octocat").
Proof.
  assert (request_exception
            (answer 503 "Service Unavailable" JNull (repos_url "octocat"))
          = Some ("503 Server Error: Service Unavailable for url: "
                  +:+ repos_url "octocat")) as H by (vm_compute; reflexivity).
  split; [exact H|].
  exact (proj2 (proj1 (repos_replies (answer 503 "Service Unavailable" JNull)
                         "octocat" None None [] eq_refl) _) H).
Defined.

Lemma repos_item_not_object_witness :
  (get_api_github_repos
     (answer 200 "OK" (JArr [JObj (raw_repo 5 false "2023-01-01"); JStr "x"]))
     (Some "octocat") None (Some true) []).1
  = internal_error.
Proof.
  exact (repos_item_not_object
           (answer 200 "OK" (JArr [JObj (raw_repo 5 false "2023-01-01"); JStr "x"]))
           "octocat" None (Some true) [] _
           [JObj (raw_repo 5 false "2023-01-01"); JStr "x"] (JStr "x")
           eq_refl eq_refl eq_refl eq_refl
           ltac:(apply list_elem_of_further, list_elem_of_here)
           ltac:(intros repo; discriminate)).
Defined.

(** The body of a rate-limited answer that comes with a 200 *)
Lemma repos_body_not_list_witness :
  (get_api_github_repos
     (answer 200 "OK" (JObj {[ "message" := JStr "API rate limit exceeded" ]}))
     (Some "octocat") None None []).1
  = internal_error.
Proof.
  exact (repos_body_not_list
           (answer 200 "OK" (JObj {[ "message" := JStr "API rate limit exceeded" ]}))
           "octocat" None None [] _
           (JObj {[ "message" := JStr "API rate limit exceeded" ]})
           eq_refl eq_refl eq_refl eq_refl
           ltac:(intros items; discriminate)
           ltac:(intros H; vm_compute in H; discriminate)
           ltac:(discriminate)).
Defined.

Lemma repos_items_witness :
  ∃ repo,
    JObj repo ∈ JObj <$> three_repos ∧
    selected false repo = true ∧
    summary_of repo !! "stargazers_count" = Some (JInt 2) ∧
    summary_of repo !! "topics" = Some (JArr []) ∧
    summary_of repo !! "language" = Some JNull.
Proof.
  assert ((get_api_github_repos listing (Some "octocat") None None []).1
          = Reply 200 (JArr (JObj <$>
              [summary_of (raw_repo 5 false "2023-01-01");
               summary_of (raw_repo 2 false "2024-01-01")]))) as H
    by (vm_compute; reflexivity).
  destruct (repos_items listing "octocat" None None [] _
              (JObj (summary_of (raw_repo 2 false "2024-01-01"))) H
              ltac:(apply list_elem_of_further, list_elem_of_here))
    as (r & items & repo & m & Hup & Hbody & Hin & Hsel & Hx & Hdom
        & Hstars & Hfork & Htopics & Hrest).
  injection Hup as <-. injection Hbody as <-. injection Hx as <-.
  exists (raw_repo 2 false "2024-01-01").
  split; [apply list_elem_of_further, list_elem_of_further, list_elem_of_here|].
  repeat split; reflexivity.
Defined.

Lemma repos_limit_prefix_witness :
  (get_api_github_repos listing (Some "octocat") (Some 3) (Some true) []).1
    = Reply 200 (JArr (JObj <$>
        [summary_of (raw_repo 5 true "2023-06-01");
         summary_of (raw_repo 5 false "2023-01-01");
         summary_of (raw_repo 2 false "2024-01-01")])) ∧
  (get_api_github_repos listing (Some "octocat") (Some 1) (Some true) []).1
    = Reply 200 (JArr [JObj (summary_of (raw_repo 5 true "2023-06-01"))]).
Proof.
  assert ((get_api_github_repos listing (Some "octocat") (Some 3) (Some true) []).1
          = Reply 200 (JArr (JObj <$>
              [summary_of (raw_repo 5 true "2023-06-01");
               summary_of (raw_repo 5 false "2023-01-01");
               summary_of (raw_repo 2 false "2024-01-01")]))) as H
    by (vm_compute; reflexivity).
  split; [exact H|].
  exact (repos_limit_prefix listing "octocat" 1 3 (Some true) [] [] _
           ltac:(lia) ltac:(lia) ltac:(lia) H).
Defined.

Lemma repos_at_most_limit_witness :
  (get_api_github_repos listing (Some "octocat") (Some 2) (Some true) []).1
    = Reply 200 (JArr (JObj <$>
        [summary_of (raw_repo 5 true "2023-06-01");
         summary_of (raw_repo 5 false "2023-01-01")])) ∧
  Z.of_nat 2 ≤ 2 ∧ 2 ≤ 50.
Proof.
  assert ((get_api_github_repos listing (Some "octocat") (Some 2) (Some true) []).1
          = Reply 200 (JArr (JObj <$>
              [summary_of (raw_repo 5 true "2023-06-01");
               summary_of (raw_repo 5 false "2023-01-01")]))) as H
    by (vm_compute; reflexivity).
  split; [exact H|].
  exact (repos_at_most_limit listing "octocat" (Some 2) (Some true) [] _ H).
Defined.

Lemma repos_without_forks_witness :
  (get_api_github_repos (lists two_repos) (Some "octocat") None None []).1
  = (get_api_github_repos (lists two_repos) (Some "octocat") None (Some true) []).1.
Proof.
  exact (repos_without_forks (lists two_repos) "octocat" None [] _ two_repos
           None (Some true) eq_refl eq_refl ltac:(repeat constructor)).
Defined.

(** The fork and its source have one key; the reply keeps them in the
    order of upstream, the fork first. *)
Lemma repos_stable_witness :
  (get_api_github_repos (lists twins) (Some "octocat") None (Some true) []).1
    = Reply 200 (JArr (JObj <$>
        [summary_of (raw_repo 5 true "2023-01-01");
         summary_of (raw_repo 5 false "2023-01-01")])) ∧
  filter (λ x, item_key x = Some (5, "2023-01-01"))
    (JObj <$> [summary_of (raw_repo 5 true "2023-01-01");
               summary_of (raw_repo 5 false "2023-01-01")])
  `prefix_of`
  filter (λ x, item_key x = Some (5, "2023-01-01"))
    ((JObj ∘ summary_of) <$> filter (λ repo, selected true repo) twins).
Proof.
  assert ((get_api_github_repos (lists twins) (Some "octocat") None (Some true) []).1
          = Reply 200 (JArr (JObj <$>
              [summary_of (raw_repo 5 true "2023-01-01");
               summary_of (raw_repo 5 false "2023-01-01")]))) as H
    by (vm_compute; reflexivity).
  split; [exact H|].
  exact (repos_stable (lists twins) "octocat" None (Some true) [] _ twins _
           (5, "2023-01-01") eq_refl eq_refl H).
Defined.

Lemma reply_sorted_throughout_witness :
  Forall (λ repo, typed_repo repo = true) three_repos ∧
  (get_api_github_repos listing (Some "octocat") None (Some true) []).1
    = Reply 200 (JArr (JObj <$>
        [summary_of (raw_repo 5 true "2023-06-01");
         summary_of (raw_repo 5 false "2023-01-01");
         summary_of (raw_repo 2 false "2024-01-01")])) ∧
  StronglySorted in_order (JObj <$>
    [summary_of (raw_repo 5 true "2023-06-01");
     summary_of (raw_repo 5 false "2023-01-01");
     summary_of (raw_repo 2 false "2024-01-01")]).
Proof.
  assert (Forall (λ repo, typed_repo repo = true) three_repos) as Htyped
    by (repeat constructor).
  assert ((get_api_github_repos listing (Some "octocat") None (Some true) []).1
          = Reply 200 (JArr (JObj <$>
              [summary_of (raw_repo 5 true "2023-06-01");
               summary_of (raw_repo 5 false "2023-01-01");
               summary_of (raw_repo 2 false "2024-01-01")]))) as H
    by (vm_compute; reflexivity).
  destruct (reply_sorted_throughout listing "octocat" None (Some true) [] _
              three_repos eq_refl eq_refl eq_refl eq_refl Htyped)
    as (out & Hreply & Hsorted).
  rewrite H in Hreply. injection Hreply as <-.
  split; [exact Htyped|]. split; [exact H|exact Hsorted].
Defined.

(** With a limit of one the reply shows five stars, and the repository
    that was cut off has two. *)
Lemma repos_first_has_most_stars_witness :
  (get_api_github_repos (lists two_repos) (Some "octocat") (Some 1) None []).1
    = Reply 200 (JArr [JObj (summary_of (raw_repo 5 false "2023-01-01"))]) ∧
  2 ≤ 5.
Proof.
  assert ((get_api_github_repos (lists two_repos) (Some "octocat") (Some 1) None []).1
          = Reply 200 (JArr [JObj (summary_of (raw_repo 5 false "2023-01-01"))]))
    as H by (vm_compute; reflexivity).
  split; [exact H|].
  exact (repos_first_has_most_stars (lists two_repos) "octocat" (Some 1) None []
           _ two_repos _ [] (raw_repo 2 false "2024-01-01") 5 2
           eq_refl eq_refl H ltac:(apply list_elem_of_here)
           eq_refl eq_refl eq_refl).
Defined.

Lemma repos_order_irrelevant_witness :
  three_repos ≡ₚ three_repos_back ∧
  (get_api_github_repos (lists three_repos) (Some "octocat") None (Some true) []).1
  = (get_api_github_repos (lists three_repos_back) (Some "octocat") None
       (Some true) []).1.
Proof.
  assert (three_repos ≡ₚ three_repos_back) as Hperm.
  { unfold three_repos, three_repos_back.
    etrans; [apply Permutation_swap|]. etrans; [apply perm_skip, Permutation_swap|].
    apply Permutation_swap. }
  split; [exact Hperm|].
  eapply (repos_order_irrelevant (lists three_repos) (lists three_repos_back)
            "octocat" None (Some true) [] []);
    [reflexivity|reflexivity|reflexivity|reflexivity|reflexivity|reflexivity
    |exact Hperm|..].
  - repeat constructor.
  - intros a b Ha Hb Hkey. unfold three_repos in Ha, Hb.
    repeat (apply elem_of_cons in Ha as [->|Ha]);
      repeat (apply elem_of_cons in Hb as [->|Hb]);
      try (by apply elem_of_nil in Ha); try (by apply elem_of_nil in Hb);
      try reflexivity; vm_compute in Hkey; discriminate.
Defined.


End Further.
